(** * The sign-up form of apps/remix: validation schema and submission workflow

    A shallow embedding of [apps/remix/app/components/forms/signup.tsx]:
    the zod schema [ZSignUpFormSchema], the table [signupErrorMessages],
    the handlers [onFormSubmit], [onSignUpWithGoogleClick] and
    [onSignUpWithOIDCClick], and the two submit paths of the rendered
    form (the [<form>] [onSubmit] handler and the Complete button).

    Strings are sequences of code units; the development uses the
    standard [string] type, whose characters are the code units below
    256.  The string operations are those of ECMAScript and operate on
    code units uniformly, so nothing below depends on the alphabet
    except the list of white-space characters. *)

From Stdlib Require Import ZArith Ascii String List Lia Bool.
From stdpp Require Import base option gmap strings list.

Open Scope string_scope.

(** ** ECMAScript string operations used by the component *)

Module JsString.

(** [String.prototype.includes]: [sub] occurs in [s] at some position. *)
Fixpoint includes (s sub : string) : bool :=
  String.prefix sub s ||
  match s with
  | EmptyString => false
  | String _ s' => includes s' sub
  end.

(** WhiteSpace and LineTerminator code units below 256: TAB, LF, VT,
    FF, CR, SP and NBSP. *)
Definition isWhiteSpace (c : ascii) : bool :=
  let n := nat_of_ascii c in
  ((9 <=? n)%nat && (n <=? 13)%nat) || (n =? 32)%nat || (n =? 160)%nat.

(** [String.prototype.trimStart]. *)
Fixpoint trimStart (s : string) : string :=
  match s with
  | EmptyString => EmptyString
  | String c s' => if isWhiteSpace c then trimStart s' else s
  end.

(** [String.prototype.trimEnd]. *)
Fixpoint trimEnd (s : string) : string :=
  match s with
  | EmptyString => EmptyString
  | String c s' =>
      match trimEnd s' with
      | EmptyString => if isWhiteSpace c then EmptyString else String c EmptyString
      | r => String c r
      end
  end.

(** [String.prototype.trim]. *)
Definition trim (s : string) : string := trimEnd (trimStart s).

(** [String.prototype.split] with a separator of one code unit (the
    component only splits at ["@"]).  The result is never empty:
    splitting the empty string gives one empty piece. *)
Fixpoint split (sep : ascii) (s : string) : list string :=
  match s with
  | EmptyString => [EmptyString]
  | String c s' =>
      if Ascii.eqb c sep then EmptyString :: split sep s'
      else match split sep s' with
           | h :: t => String c h :: t
           | [] => [String c EmptyString]
           end
  end.

(** [arr[0]] used as a string argument: a missing element is
    [undefined], which [includes] would coerce to the text
    ["undefined"]. *)
Definition first (arr : list string) : string :=
  match arr with
  | h :: _ => h
  | [] => "undefined"
  end.

(** [a || b] on an optional string: the empty string and [undefined]
    are falsy. *)
Definition or_null (a : option string) : option string :=
  match a with
  | Some EmptyString => None
  | Some s => Some s
  | None => None
  end.

End JsString.

(** ** The fragment of zod 3 used by the schema *)

Module Zod.

(** An issue: the path of the offending field and the message. *)
Record ZodIssue := mkIssue { path : list string; message : string }.

(** The checks of a [z.string()] schema.  They run in the order in
    which they were chained; [trim] replaces the value that the later
    checks (and the output) see; a failing check adds an issue and
    parsing continues with the next check. *)
Inductive ZodStringCheck :=
| ck_trim
| ck_min (n : nat) (msg : string)
| ck_email (msg : string).

Section Checks.
(** The regular expression behind [.email()] is the library's; it is
    taken as a test on strings. *)
Variable emailRegex_test : string -> bool.

Fixpoint run_checks (cks : list ZodStringCheck) (v : string) : string * list string :=
  match cks with
  | [] => (v, [])
  | ck_trim :: rest => run_checks rest (JsString.trim v)
  | ck_min n msg :: rest =>
      let '(out, errs) := run_checks rest v in
      (out, if (String.length v <? n)%nat then msg :: errs else errs)
  | ck_email msg :: rest =>
      let '(out, errs) := run_checks rest v in
      (out, if emailRegex_test v then errs else msg :: errs)
  end.
End Checks.

(** Issues of a field of an object schema carry the field's key as path. *)
Definition at_key (key : string) (msgs : list string) : list ZodIssue :=
  map (mkIssue [key]) msgs.

(** zod's default messages for the checks given without one. *)
Definition default_email_message : string := "Invalid email".
Definition default_min1_message : string :=
  "String must contain at least 1 character(s)".

End Zod.

(** ** Collaborators of the component

    The component imports these from packages that are not part of the
    two files; they are the parameters of the development. *)

(** A lingui message descriptor, written [msg`...`] in the source.  Its
    [id] is derived by lingui from the source text; the model identifies
    a descriptor with that text. *)
Record MessageDescriptor := msg { msg_text : string }.

Definition msg_id (d : MessageDescriptor) : string := msg_text d.

(** [AppError] of [@documenso/lib/errors/app-error]; only [code] is read. *)
Record AppError := mkAppError { code : string }.

Class Externals := {
  (** what [authClient] calls may throw *)
  Thrown : Type;
  (** [AppError.parseError] *)
  AppError_parseError : Thrown -> AppError;
  (** the members [ALREADY_EXISTS] and [INVALID_REQUEST] of the string
      enum [AppErrorCode] *)
  AppErrorCode_ALREADY_EXISTS : string;
  AppErrorCode_INVALID_REQUEST : string;
  (** [ZPasswordSchema] of [@documenso/trpc/server/auth-router/schema]:
      the password strength policy, a string schema made of checks.  It
      yields the messages of the failed checks (none when the password
      passes) and leaves the value as it is. *)
  ZPasswordSchema : string -> list string;
  (** the regular expression of zod's [.email()] *)
  emailRegex_test : string -> bool;
  (** [_] of [useLingui]: renders a descriptor in the active locale *)
  i18n_ : MessageDescriptor -> string;
}.

(** ** Data model *)

(** [TSignUpFormSchema]: the values of the form, and the output of the
    schema.  [signature] is optional. *)
Record TSignUpFormSchema := mkValues {
  name : string;
  email : string;
  password : string;
  signature : option string;
}.

(** The result of [safeParse]. *)
Inductive SafeParseReturn :=
| ParseSuccess (data : TSignUpFormSchema)
| ParseError (issues : list Zod.ZodIssue).

Definition success (r : SafeParseReturn) : bool :=
  match r with
  | ParseSuccess _ => true
  | ParseError _ => false
  end.

Definition issues_of (r : SafeParseReturn) : list Zod.ZodIssue :=
  match r with
  | ParseSuccess _ => []
  | ParseError issues => issues
  end.

Definition msg_valid_name : MessageDescriptor :=
  msg "Please enter a valid name.".

Definition msg_password_personal : MessageDescriptor :=
  msg "Password should not be common or based on personal information".

(** The issue of the cross-field refinement: [path: ['password']]. *)
Definition refine_issue : Zod.ZodIssue :=
  Zod.mkIssue ["password"] (msg_id msg_password_personal).

(** The callback given to [.refine]: it reads the fields of the parsed
    object, so [name] is the trimmed name. *)
Definition refinement (data : TSignUpFormSchema) : bool :=
  negb (JsString.includes (password data) (name data)) &&
  negb (JsString.includes (password data)
          (JsString.first (JsString.split "@" (email data)))).

Section Schema.
Context {ext : Externals}.

Definition name_schema : string -> string * list string :=
  Zod.run_checks emailRegex_test
    [Zod.ck_trim; Zod.ck_min 1 (msg_id msg_valid_name)].

Definition email_schema : string -> string * list string :=
  Zod.run_checks emailRegex_test
    [Zod.ck_email Zod.default_email_message;
     Zod.ck_min 1 Zod.default_min1_message].

(** [ZSignUpFormSchema.safeParse].  The object schema parses its keys
    in the order of the shape; every field of the form is a string, so
    no field aborts the parse and the refinement runs on the parsed
    object whatever issues the fields raised.  The parse succeeds when
    no issue was raised at all. *)
Definition ZSignUpFormSchema (input : TSignUpFormSchema) : SafeParseReturn :=
  let '(n, name_errs) := name_schema (name input) in
  let '(e, email_errs) := email_schema (email input) in
  let password_errs := ZPasswordSchema (password input) in
  let data := {| name := n; email := e; password := password input;
                 signature := signature input |} in
  let field_issues :=
    (Zod.at_key "name" name_errs ++ Zod.at_key "email" email_errs ++
     Zod.at_key "password" password_errs)%list in
  match (field_issues ++ if refinement data then [] else [refine_issue])%list with
  | [] => ParseSuccess data
  | issues => ParseError issues
  end.

End Schema.

(** ** [Date.prototype.toISOString]

    A time value is the number of milliseconds since the epoch, in UTC.
    The calendar fields are computed from the day number by the usual
    era/day-of-era arithmetic of the proleptic Gregorian calendar. *)

Module JsDate.
Local Open Scope Z_scope.

Definition msPerDay : Z := 86400000.

(** Year, month (1..12) and day of the month of a day number. *)
Definition civil_from_days (days : Z) : Z * Z * Z :=
  let z := days + 719468 in
  let era := z / 146097 in
  let doe := z mod 146097 in
  let yoe := (doe - doe / 1460 + doe / 36524 - doe / 146096) / 365 in
  let doy := doe - (365 * yoe + yoe / 4 - yoe / 100) in
  let mp := (5 * doy + 2) / 153 in
  let d := doy - (153 * mp + 2) / 5 + 1 in
  let m := if mp <? 10 then mp + 3 else mp - 9 in
  let y := yoe + era * 400 + (if m <=? 2 then 1 else 0) in
  (y, m, d).

Definition digit (n : Z) : ascii := ascii_of_nat (48 + Z.to_nat (n mod 10)).

(** The last [width] decimal digits of [n], written in front of [rest]. *)
Fixpoint digits (width : nat) (n : Z) (rest : string) : string :=
  match width with
  | O => rest
  | S w => digits w (n / 10) (String (digit n) rest)
  end.

(** [YYYY-MM-DDTHH:mm:ss.sssZ]; a year outside 0..9999 is written with
    a sign and six digits. *)
Definition toISOString (t : Z) : string :=
  let '(y, m, d) := civil_from_days (t / msPerDay) in
  let ms := t mod msPerDay in
  let tail :=
    String "-" (digits 2 m (String "-" (digits 2 d (String "T"
      (digits 2 (ms / 3600000) (String ":"
      (digits 2 (ms / 60000 mod 60) (String ":"
      (digits 2 (ms / 1000 mod 60) (String "."
      (digits 3 (ms mod 1000) "Z"))))))))))) in
  if (0 <=? y) && (y <=? 9999) then digits 4 y tail
  else String (if y <? 0 then "-"%char else "+"%char) (digits 6 (Z.abs y) tail).






End JsDate.

(** ** Effects of the handlers

    Calls to the authentication client and to [navigate] are awaited:
    the handler is suspended until the call settles, and a rejection is
    thrown at the await.  [toast] and [analytics.capture] are sinks:
    they return normally.  Diagnostics written to the console are not
    part of the model. *)

Record SignUpPayload := mkPayload {
  payload_name : string;
  payload_email : string;
  payload_password : string;
  payload_signature : option string;   (* [None] is [null] *)
}.

Inductive AuthCall :=
| emailPassword_signUp (p : SignUpPayload)
| google_signIn
| oidc_signIn.

Inductive ToastVariant := destructive.

Record ToastProps := mkToast {
  title : string;
  description : option string;   (* optional *)
  variant : option ToastVariant;
  duration : option Z;
}.

Record CaptureProps := mkCapture {
  capture_email : string;
  capture_timestamp : string;
  custom_campaign_params_src : option string;   (* [None] is [null] *)
}.

Inductive Effect :=
| authClient (c : AuthCall)
| navigate (to : string)
| toast (t : ToastProps)
| analytics_capture (event : string) (props : CaptureProps).

(** What a handler can be suspended on: a call to the authentication
    client, or [navigate]. *)
Inductive Awaited :=
| auth_call (c : AuthCall)
| navigation (to : string).

Coercion auth_call : AuthCall >-> Awaited.

(** The call made when the await is reached. *)
Definition call_of (c : Awaited) : Effect :=
  match c with
  | auth_call a => authClient a
  | navigation to => navigate to
  end.

Section Programs.
Context {ext : Externals}.

Inductive Outcome :=
| Resolved
| Rejected (err : Thrown).

(** Handler bodies: a tree of calls.  [Await] makes a call and
    suspends the handler until it settles, [NewDate] reads the
    clock. *)
Inductive Prog (A : Type) : Type :=
| Ret (a : A)
| Throw (err : Thrown)
| Call (e : Effect) (k : Prog A)
| Await (c : Awaited) (k : Outcome -> Prog A)
| NewDate (k : Z -> Prog A).

Global Arguments Ret {A} a.
Global Arguments Throw {A} err.
Global Arguments Call {A} e k.
Global Arguments Await {A} c k.
Global Arguments NewDate {A} k.

Fixpoint bind {A B} (p : Prog A) (f : A -> Prog B) : Prog B :=
  match p with
  | Ret a => f a
  | Throw err => Throw err
  | Call e k => Call e (bind k f)
  | Await c k => Await c (fun o => bind (k o) f)
  | NewDate k => NewDate (fun t => bind (k t) f)
  end.

(** [try { p } catch (err) { handler err }]. *)
Fixpoint try_catch {A} (p : Prog A) (handler : Thrown -> Prog A) : Prog A :=
  match p with
  | Ret a => Ret a
  | Throw err => handler err
  | Call e k => Call e (try_catch k handler)
  | Await c k => Await c (fun o => try_catch (k o) handler)
  | NewDate k => NewDate (fun t => try_catch (k t) handler)
  end.

(** [await f(...)]: a rejection is rethrown at the await. *)
Definition await (c : Awaited) : Prog unit :=
  Await c (fun o => match o with Resolved => Ret tt | Rejected err => Throw err end).

Definition call (e : Effect) : Prog unit := Call e (Ret tt).

Definition new_Date : Prog Z := NewDate Ret.

(** How an awaited call settles when the authentication client
    answers as [auth] says and every navigation completes. *)
Definition answer (auth : AuthCall -> Outcome) (c : Awaited) : Outcome :=
  match c with
  | auth_call a => auth a
  | navigation _ => Resolved
  end.

(** Running a handler to its end against an authentication client
    whose answers are given by [auth], a navigation that completes and
    a clock reading [now]: the calls made, in order, and the value
    returned or thrown. *)
Fixpoint run {A} (auth : AuthCall -> Outcome) (now : Z) (p : Prog A)
  : list Effect * (A + Thrown) :=
  match p with
  | Ret a => ([], inl a)
  | Throw err => ([], inr err)
  | Call e k => let '(tr, r) := run auth now k in (e :: tr, r)
  | Await c k =>
      let '(tr, r) := run auth now (k (answer auth c)) in (call_of c :: tr, r)
  | NewDate k => run auth now (k now)
  end.

End Programs.

Declare Scope prog_scope.
Delimit Scope prog_scope with prog.
Notation "x <- p ;; q" := (bind p (fun x => q))
  (at level 20, p at level 99, q at level 200, only parsing) : prog_scope.
Notation "p ;; q" := (bind p (fun _ => q))
  (at level 100, q at level 200, only parsing, right associativity) : prog_scope.

(** ** The component [SignUpForm] *)

(** [URLSearchParams]: the key/value pairs in the order of the query
    string; [get] returns the first value of a key, or [null]. *)
Definition URLSearchParams := list (string * string).

Fixpoint URLSearchParams_get (key : string) (params : URLSearchParams) : option string :=
  match params with
  | [] => None
  | (k, v) :: rest => if String.eqb k key then Some v else URLSearchParams_get key rest
  end.

(** [a ?? b]. *)
Definition nullish {A} (a b : option A) : option A :=
  match a with
  | Some x => Some x
  | None => b
  end.

Record SignUpFormProps := mkProps {
  initialEmail : option string;
  isGoogleSSOEnabled : option bool;
  isOIDCSSOEnabled : option bool;
}.

Definition msg_signups_disabled : MessageDescriptor :=
  msg "Signups are disabled.".

Definition msg_already_exists : MessageDescriptor :=
  msg "User with this email already exists. Please use a different email address.".

Definition msg_invalid_request : MessageDescriptor :=
  msg "We were unable to create your account. Please review the information you provided and try again.".

Definition msg_unknown_error : MessageDescriptor :=
  msg "We encountered an unknown error while attempting to sign you Up. Please try again later.".

(** The names of the members of [Object.prototype], which every object
    literal inherits. *)
Definition Object_prototype_keys : list string :=
  ["constructor"; "__defineGetter__"; "__defineSetter__"; "hasOwnProperty";
   "__lookupGetter__"; "__lookupSetter__"; "isPrototypeOf";
   "propertyIsEnumerable"; "toString"; "valueOf"; "__proto__";
   "toLocaleString"].

(** What [obj[key]] yields on an object literal whose own properties
    are [obj]: the own property of that key; else the member of
    [Object.prototype] of that name, which is a function or the
    prototype itself, never [null] or [undefined]; else [undefined]. *)
Inductive Property (A : Type) : Type :=
| own (a : A)
| inherited (key : string).

Arguments own {A} a.
Arguments inherited {A} key.

Definition get_property {A} (obj : gmap string A) (key : string) : option (Property A) :=
  match obj !! key with
  | Some a => Some (own a)
  | None =>
      if bool_decide (key ∈ Object_prototype_keys) then Some (inherited key)
      else None
  end.

Section Handlers.
Context {ext : Externals}.

(** The object literal [signupErrorMessages]: its three properties are
    defined in source order, a later one replacing an earlier one with
    the same key.  The map holds the own properties of the object; the
    object is read with [get_property], which also finds the members it
    inherits. *)
Definition signupErrorMessages : gmap string MessageDescriptor :=
  <[AppErrorCode_INVALID_REQUEST := msg_invalid_request]>
    (<[AppErrorCode_ALREADY_EXISTS := msg_already_exists]>
       (<["SIGNUP_DISABLED" := msg_signups_disabled]> ∅)).

(** The query parameters of the page. *)
Variable searchParams : URLSearchParams.

Definition utmSrc : option string :=
  nullish (URLSearchParams_get "utm_source" searchParams) None.

Definition signUp_payload (values : TSignUpFormSchema) : SignUpPayload :=
  {| payload_name := name values;
     payload_email := email values;
     payload_password := password values;
     payload_signature := JsString.or_null (signature values) |}.

Definition success_toast : ToastProps :=
  {| title := i18n_ (msg "Registration Successful");
     description := Some (i18n_ (msg
       "You have successfully registered. Please verify your account by clicking on the link you received in the email."));
     variant := None;
     duration := Some 5000%Z |}.

(** [_(errorMessage)]: the text of a descriptor; Lingui finds neither
    an id nor a message on a value that is not a descriptor, or on
    [undefined], and renders it as the empty string. *)
Definition render (errorMessage : option (Property MessageDescriptor)) : option string :=
  match errorMessage with
  | Some (own d) => Some (i18n_ d)
  | _ => Some ""
  end.

Definition error_toast (errorMessage : option (Property MessageDescriptor)) : ToastProps :=
  {| title := i18n_ (msg "An error occurred");
     description := render errorMessage;
     variant := Some destructive;
     duration := None |}.

Definition unknown_error_toast : ToastProps :=
  {| title := i18n_ (msg "An unknown error occurred");
     description := Some (i18n_ msg_unknown_error);
     variant := Some destructive;
     duration := None |}.

Definition onFormSubmit (values : TSignUpFormSchema) : Prog unit :=
  try_catch
    (await (emailPassword_signUp (signUp_payload values)) ;;
     await (navigation "/unverified-account") ;;
     call (toast success_toast) ;;
     now <- new_Date ;;
     call (analytics_capture "App: User Sign Up"
             {| capture_email := email values;
                capture_timestamp := JsDate.toISOString now;
                custom_campaign_params_src := utmSrc |}))%prog
    (fun err =>
       let error := AppError_parseError err in
       let errorMessage :=
         nullish (get_property signupErrorMessages (code error))
                 (get_property signupErrorMessages "INVALID_REQUEST") in
       call (toast (error_toast errorMessage))).

Definition onSignUpWithGoogleClick : Prog unit :=
  try_catch (await google_signIn)
    (fun _ => call (toast unknown_error_toast)).

Definition onSignUpWithOIDCClick : Prog unit :=
  try_catch (await oidc_signIn)
    (fun _ => call (toast unknown_error_toast)).

End Handlers.

(** ** The form state kept by react-hook-form

    [useForm] is configured with [mode: 'onChange'] and
    [zodResolver(ZSignUpFormSchema)]: the resolver runs on every change
    of a field and refreshes the message of that field;
    [form.trigger()] and [form.handleSubmit] run it on all fields.

    [formState.isValid] is kept behind a proxy: react-hook-form
    recomputes it on a change only once the component has read it, and
    the component reads it nowhere but in the [onSubmit] handler of the
    [<form>].  [form.trigger] recomputes it in any case.  Until its
    first read, and between two recomputations, the flag keeps the
    value it had.  The resolver is taken to have finished before the
    next event is handled. *)

Inductive FieldName := field_name | field_email | field_password | field_signature.

Definition field_key (f : FieldName) : string :=
  match f with
  | field_name => "name"
  | field_email => "email"
  | field_password => "password"
  | field_signature => "signature"
  end.

Definition setValue (f : FieldName) (v : string) (values : TSignUpFormSchema)
  : TSignUpFormSchema :=
  match f with
  | field_name =>
      {| name := v; email := email values; password := password values;
         signature := signature values |}
  | field_email =>
      {| name := name values; email := v; password := password values;
         signature := signature values |}
  | field_password =>
      {| name := name values; email := email values; password := v;
         signature := signature values |}
  | field_signature =>
      {| name := name values; email := email values; password := password values;
         signature := Some v |}
  end.

Record FormState := mkForm {
  getValues : TSignUpFormSchema;
  isValid : bool;
  isSubmitting : bool;
  errors : gmap string string;   (* field path to the message shown by [FormMessage] *)
}.

(** [path.join('.')]. *)
Fixpoint join_path (path : list string) : string :=
  match path with
  | [] => ""
  | [k] => k
  | k :: rest => k ++ "." ++ join_path rest
  end.

(** The resolver keeps, for every path, the first issue raised. *)
Fixpoint to_errors (issues : list Zod.ZodIssue) : gmap string string :=
  match issues with
  | [] => ∅
  | i :: rest => <[join_path (Zod.path i) := Zod.message i]> (to_errors rest)
  end.

Section Form.
Context {ext : Externals}.
Variable props : SignUpFormProps.
Variable searchParams : URLSearchParams.
(** the parameters of [window.location.hash] *)
Variable hashParams : URLSearchParams.

Definition resolver_errors (values : TSignUpFormSchema) : gmap string string :=
  to_errors (issues_of (ZSignUpFormSchema values)).

(** [useForm({ defaultValues, ... })] followed by the mount effect,
    which copies a non-empty [email] of the hash into the form without
    validating. *)
Definition mount : FormState :=
  let defaultValues :=
    {| name := ""; email := default "" (initialEmail props); password := "";
       signature := Some "" |} in
  {| getValues :=
       match URLSearchParams_get "email" hashParams with
       | Some (String c e) => setValue field_email (String c e) defaultValues
       | _ => defaultValues
       end;
     isValid := false;
     isSubmitting := false;
     errors := ∅ |}.

(** Whether a change of field [f] recomputes [formState.isValid]:
    when the flag has been read before ([watched]), and in any case for
    the signature, whose [onChange] goes on to call
    [form.trigger('signature')]. *)
Definition recomputes_isValid (watched : bool) (f : FieldName) : bool :=
  watched ||
  match f with
  | field_signature => true
  | _ => false
  end.

(** A change of one field: every input carries
    [disabled={isSubmitting}]. *)
Definition change (watched : bool) (f : FieldName) (v : string) (fs : FormState)
  : FormState :=
  if isSubmitting fs then fs
  else
    let values := setValue f v (getValues fs) in
    let errs := resolver_errors values in
    {| getValues := values;
       isValid := if recomputes_isValid watched f then bool_decide (errs = ∅)
                  else isValid fs;
       isSubmitting := false;
       errors := match errs !! field_key f with
                 | Some m => <[field_key f := m]> (errors fs)
                 | None => delete (field_key f) (errors fs)
                 end |}.

(** [form.trigger()]. *)
Definition trigger (fs : FormState) : FormState :=
  let errs := resolver_errors (getValues fs) in
  {| getValues := getValues fs;
     isValid := bool_decide (errs = ∅);
     isSubmitting := isSubmitting fs;
     errors := errs |}.

Definition set_isSubmitting (b : bool) (fs : FormState) : FormState :=
  {| getValues := getValues fs; isValid := isValid fs; isSubmitting := b;
     errors := errors fs |}.

Definition set_errors (errs : gmap string string) (fs : FormState) : FormState :=
  {| getValues := getValues fs; isValid := isValid fs;
     isSubmitting := isSubmitting fs; errors := errs |}.

End Form.

(** ** The rendered page as a transition system

    Handlers run on the UI thread until they reach an [await]; they
    are then parked until the awaited call settles, and other events
    may be handled in between. *)

Inductive Origin :=
| from_onSubmit       (* started by the [onSubmit] handler of the [<form>] *)
| from_handleSubmit   (* started by [form.handleSubmit] *)
| from_sso.           (* one of the two single sign-on buttons *)

Section Page.
Context {ext : Externals}.
Variable props : SignUpFormProps.
Variable searchParams : URLSearchParams.
Variable hashParams : URLSearchParams.

(** Where a handler stops. *)
Inductive Paused :=
| Done
| Threw (err : Thrown)
| Suspended (c : Awaited) (k : Outcome -> Prog unit).

Fixpoint exec (now : Z) (p : Prog unit) : list Effect * Paused :=
  match p with
  | Ret _ => ([], Done)
  | Throw err => ([], Threw err)
  | Call e k => let '(made, r) := exec now k in (e :: made, r)
  | Await c k => ([call_of c], Suspended c k)
  | NewDate k => exec now (k now)
  end.

Record Task := mkTask {
  origin : Origin;
  awaited : Awaited;
  resume : Outcome -> Prog unit;
}.

Record Page := mkPage {
  form : FormState;
  pending : list Task;      (* handlers parked at an await, oldest first *)
  calls : list Effect;      (* every call made so far, in order *)
  uncaught : list Thrown;   (* errors that escaped a handler *)
  watchesIsValid : bool;    (* [formState.isValid] has been read *)
}.

Definition with_form (fs : FormState) (pg : Page) : Page :=
  {| form := fs; pending := pending pg; calls := calls pg; uncaught := uncaught pg;
     watchesIsValid := watchesIsValid pg |}.

(** The first read of [form.formState.isValid] makes react-hook-form
    keep the flag up to date from then on. *)
Definition read_isValid (pg : Page) : Page :=
  {| form := form pg; pending := pending pg; calls := calls pg;
     uncaught := uncaught pg; watchesIsValid := true |}.

(** The page without its i-th parked handler. *)
Definition unpark (i : nat) (pg : Page) : Page :=
  {| form := form pg; pending := delete i (pending pg); calls := calls pg;
     uncaught := uncaught pg; watchesIsValid := watchesIsValid pg |}.

(** [form.handleSubmit] clears [isSubmitting] when its callback has
    returned or thrown. *)
Definition finished (o : Origin) (fs : FormState) : FormState :=
  match o with
  | from_handleSubmit => set_isSubmitting false fs
  | _ => fs
  end.

(** Run a handler, started or resumed, up to its next stop. *)
Definition advance (now : Z) (o : Origin) (p : Prog unit) (pg : Page) : Page :=
  let '(made, r) := exec now p in
  match r with
  | Done =>
      {| form := finished o (form pg); pending := pending pg;
         calls := (calls pg ++ made)%list; uncaught := uncaught pg;
         watchesIsValid := watchesIsValid pg |}
  | Threw err =>
      {| form := finished o (form pg); pending := pending pg;
         calls := (calls pg ++ made)%list; uncaught := (uncaught pg ++ [err])%list;
         watchesIsValid := watchesIsValid pg |}
  | Suspended c k =>
      {| form := form pg; pending := (pending pg ++ [mkTask o c k])%list;
         calls := (calls pg ++ made)%list; uncaught := uncaught pg;
         watchesIsValid := watchesIsValid pg |}
  end.

Inductive Action :=
| Change (f : FieldName) (v : string)   (* the user edits a field *)
| SubmitEvent                           (* a submit event reaches the [<form>] *)
| ClickComplete                         (* a click on the Complete button *)
| ClickGoogle
| ClickOIDC
| Settle (i : nat) (o : Outcome).       (* the awaited call of the i-th parked handler settles *)

Definition truthy (b : option bool) : bool := default false b.

Definition step (now : Z) (a : Action) (pg : Page) : Page :=
  match a with
  | Change f v => with_form (change (watchesIsValid pg) f v (form pg)) pg
  | SubmitEvent =>
      if isValid (form pg)
      then advance now from_onSubmit
             (onFormSubmit searchParams (getValues (form pg))) (read_isValid pg)
      else with_form (trigger (form pg)) (read_isValid pg)
  | ClickComplete =>
      if isSubmitting (form pg) then pg
      else
        match ZSignUpFormSchema (getValues (form pg)) with
        | ParseSuccess data =>
            advance now from_handleSubmit (onFormSubmit searchParams data)
              (with_form (set_errors ∅ (set_isSubmitting true (form pg))) pg)
        | ParseError issues =>
            with_form (set_errors (to_errors issues) (form pg)) pg
        end
  | ClickGoogle =>
      if truthy (isGoogleSSOEnabled props) && negb (isSubmitting (form pg))
      then advance now from_sso onSignUpWithGoogleClick pg
      else pg
  | ClickOIDC =>
      if truthy (isOIDCSSOEnabled props) && negb (isSubmitting (form pg))
      then advance now from_sso onSignUpWithOIDCClick pg
      else pg
  | Settle i o =>
      match pending pg !! i with
      | Some t => advance now (origin t) (resume t o) (unpark i pg)
      | None => pg
      end
  end.

Definition initial : Page :=
  {| form := mount props hashParams; pending := []; calls := []; uncaught := [];
     watchesIsValid := false |}.

(** The pages a session can be in: each event is handled at some
    clock reading. *)
Inductive reachable : Page -> Prop :=
| reachable_initial : reachable initial
| reachable_step pg now a : reachable pg -> reachable (step now a pg).

Definition session (events : list (Z * Action)) : Page :=
  fold_left (fun pg '(now, a) => step now a pg) events initial.

(** The [signUp] calls among a list of calls. *)
Definition is_signUp (e : Effect) : bool :=
  match e with
  | authClient (emailPassword_signUp _) => true
  | _ => false
  end.

Definition awaits_signUp (t : Task) : bool :=
  is_signUp (call_of (awaited t)).

End Page.

(** ** A concrete set of collaborators

    Used to evaluate the model on examples: an e-mail test after zod's
    regular expression (a local part of letters, digits and [_'+-.]
    that neither starts with a dot nor ends with a dot or quote, no two
    dots in a row, one [@], at least one domain label and a top-level
    domain of two letters or more), a password policy asking for eight
    characters,
    the enum members named after themselves, thrown values that are
    already [AppError]s, and the source locale. *)

Module Sample.

Definition between (lo hi : nat) (c : ascii) : bool :=
  let n := nat_of_ascii c in ((lo <=? n)%nat && (n <=? hi)%nat).

Definition isAlpha (c : ascii) : bool := between 65 90 c || between 97 122 c.
Definition isAlnum (c : ascii) : bool := isAlpha c || between 48 57 c.

Definition one_of (cs : string) (c : ascii) : bool :=
  existsb (Ascii.eqb c) (list_ascii_of_string cs).

Definition all_chars (p : ascii -> bool) (s : string) : bool :=
  forallb p (list_ascii_of_string s).

Definition last_char (s : string) : option ascii :=
  last (list_ascii_of_string s).

Definition local_ok (l : string) : bool :=
  all_chars (fun c => isAlnum c || one_of "_'+-." c) l &&
  match last_char l with
  | Some c => isAlnum c || one_of "_+-" c
  | None => false
  end &&
  negb (String.prefix "." l) && negb (JsString.includes l "..").

Definition label_ok (l : string) : bool :=
  match l with
  | EmptyString => false
  | String c rest => isAlnum c && all_chars (fun c => isAlnum c || one_of "-" c) rest
  end.

Definition tld_ok (t : string) : bool :=
  all_chars isAlpha t && (2 <=? String.length t)%nat.

Fixpoint labels_ok (ls : list string) : bool :=
  match ls with
  | [] => false
  | [t] => false
  | [l; t] => label_ok l && tld_ok t
  | l :: rest => label_ok l && labels_ok rest
  end.

Definition email_test (s : string) : bool :=
  match JsString.split "@" s with
  | [l; d] => local_ok l && labels_ok (JsString.split "." d)
  | _ => false
  end.

Definition eight_characters (p : string) : list string :=
  if (String.length p <? 8)%nat then ["Must be at least 8 characters in length"] else [].

#[export] Instance externals : Externals :=
  {| Thrown := AppError;
     AppError_parseError := fun err => err;
     AppErrorCode_ALREADY_EXISTS := "ALREADY_EXISTS";
     AppErrorCode_INVALID_REQUEST := "INVALID_REQUEST";
     ZPasswordSchema := eight_characters;
     emailRegex_test := email_test;
     i18n_ := msg_text |}.

(** The page as the route renders it: no initial e-mail, both single
    sign-on flags set, no query string and no hash. *)
Definition props : SignUpFormProps :=
  {| initialEmail := None; isGoogleSSOEnabled := Some true;
     isOIDCSSOEnabled := Some true |}.

Definition ann : TSignUpFormSchema :=
  {| name := "Ann Lee"; email := "ann@x.com"; password := "X9!correct-horse";
     signature := Some "" |}.


Definition rejects (c : string) : AuthCall -> Outcome :=
  fun _ => Rejected (mkAppError c).

(** A name with a leading space, an e-mail and a password are typed. *)
Definition typed_with_space : list (Z * Action) :=
  [(0%Z, Change field_name " Ann Lee"); (0%Z, Change field_email "ann@x.com");
   (0%Z, Change field_password "X9!correct-horse")].

(** The same with the name typed without the space. *)
Definition typed : list (Z * Action) :=
  [(0%Z, Change field_name "Ann Lee"); (0%Z, Change field_email "ann@x.com");
   (0%Z, Change field_password "X9!correct-horse")].

End Sample.

(** ** Auxiliary definitions for the statements *)

Section Views.
Context {ext : Externals}.

(** The object handed to the refinement, and returned on success. *)
Definition parsed (input : TSignUpFormSchema) : TSignUpFormSchema :=
  {| name := JsString.trim (name input); email := email input;
     password := password input; signature := signature input |}.

(** The issues raised by the three checked fields, in shape order. *)
Definition field_issues (input : TSignUpFormSchema) : list Zod.ZodIssue :=
  (Zod.at_key "name" (snd (name_schema (name input))) ++
   Zod.at_key "email" (snd (email_schema (email input))) ++
   Zod.at_key "password" (ZPasswordSchema (password input)))%list.

(** The local part of an e-mail address as the refinement computes it. *)
Definition local_part (e : string) : string :=
  JsString.first (JsString.split "@" e).

Variable searchParams : URLSearchParams.

(** The analytics event of a successful sign-up. *)
Definition capture_event (values : TSignUpFormSchema) (now : Z) : Effect :=
  analytics_capture "App: User Sign Up"
    {| capture_email := email values;
       capture_timestamp := JsDate.toISOString now;
       custom_campaign_params_src := URLSearchParams_get "utm_source" searchParams |}.

(** What the [catch] block of [onFormSubmit] selects as message. *)
Definition classified_message (err : Thrown) : option (Property MessageDescriptor) :=
  nullish (get_property signupErrorMessages (code (AppError_parseError err)))
          (get_property signupErrorMessages "INVALID_REQUEST").

(** What is left of [onFormSubmit values] after [await navigate]. *)
Definition navigate_continuation (values : TSignUpFormSchema)
    (k : Outcome -> Prog unit) : Prop :=
  (forall now, exec now (k Resolved) =
     ([toast success_toast; capture_event values now], Done)) /\
  (forall now err, exec now (k (Rejected err)) =
     ([toast (error_toast (classified_message err))], Done)).

(** What is left of [onFormSubmit values] after [await signUp]: when
    the call resolves the handler calls [navigate] and waits again. *)
Definition signUp_continuation (values : TSignUpFormSchema)
    (k : Outcome -> Prog unit) : Prop :=
  (forall now, exists k',
     exec now (k Resolved) =
       ([navigate "/unverified-account"],
        Suspended (navigation "/unverified-account") k') /\
     navigate_continuation values k') /\
  (forall now err, exec now (k (Rejected err)) =
     ([toast (error_toast (classified_message err))], Done)).

(** What is left of a single sign-on handler after its [await]. *)
Definition sso_continuation (k : Outcome -> Prog unit) : Prop :=
  (forall now, exec now (k Resolved) = ([], Done)) /\
  (forall now err, exec now (k (Rejected err)) = ([toast unknown_error_toast], Done)).

(** A parked handler is one of the three handlers of the component, at
    one of its awaits. *)
Definition task_ok (t : Task) : Prop :=
  match awaited t with
  | auth_call (emailPassword_signUp p) =>
      origin t <> from_sso /\
      exists values, p = signUp_payload values /\ signUp_continuation values (resume t)
  | auth_call _ => origin t = from_sso /\ sso_continuation (resume t)
  | navigation to =>
      origin t <> from_sso /\ to = "/unverified-account" /\
      exists values, navigate_continuation values (resume t)
  end.

(** The number of [signUp] calls made, and of those still awaited. *)
Definition signUp_count (made : list Effect) : nat :=
  length (filter (fun e => is_signUp e = true) made).

Definition signUp_pending (pg : Page) : nat :=
  length (filter (fun t => awaits_signUp t = true) (pending pg)).

(** What holds of every page of a session: the parked handlers are
    handlers of the component, and no error has escaped. *)
Definition page_inv (pg : Page) : Prop :=
  Forall task_ok (pending pg) /\
  uncaught pg = [].

(** Sign-ups started by [form.handleSubmit] only: at most one is
    awaited, and none unless the form is submitting. *)
Definition serialised (pg : Page) : Prop :=
  Forall (fun t => awaits_signUp t = true -> origin t = from_handleSubmit)
         (pending pg) /\
  signUp_pending pg <= (if isSubmitting (form pg) then 1 else 0).

(** A submit attempt: a submit event on the form, or a click on the
    Complete button while it is enabled. *)
Definition submit_attempt (a : Action) (pg : Page) : Prop :=
  a = SubmitEvent \/ (a = ClickComplete /\ isSubmitting (form pg) = false).

End Views.

(** ** The route [_unauthenticated+/signup] *)

Module Route.

(** What [loader] returns. *)
Record LoaderData := mkLoaderData {
  loader_isGoogleSSOEnabled : bool;
  loader_isOIDCSSOEnabled : bool;
}.

(** [loader]: it copies the two constants of
    [@documenso/lib/constants/auth], which are its parameters here. *)
Definition loader (IS_GOOGLE_SSO_ENABLED IS_OIDC_SSO_ENABLED : bool) : LoaderData :=
  let isGoogleSSOEnabled := IS_GOOGLE_SSO_ENABLED in
  let isOIDCSSOEnabled := IS_OIDC_SSO_ENABLED in
  {| loader_isGoogleSSOEnabled := isGoogleSSOEnabled;
     loader_isOIDCSSOEnabled := isOIDCSSOEnabled |}.

(** [SignUp]: the props it renders [SignUpForm] with.  [initialEmail]
    is not passed; [className] is layout only. *)
Definition SignUp (loaderData : LoaderData) : SignUpFormProps :=
  {| initialEmail := None;
     isGoogleSSOEnabled := Some (loader_isGoogleSSOEnabled loaderData);
     isOIDCSSOEnabled := Some (loader_isOIDCSSOEnabled loaderData) |}.

End Route.

(** ** Further definitions for the statements *)

(** A string whose first, or last, code unit is white space. *)
Definition starts_with_space (s : string) : bool :=
  match s with
  | EmptyString => false
  | String c _ => JsString.isWhiteSpace c
  end.

Fixpoint ends_with_space (s : string) : bool :=
  match s with
  | EmptyString => false
  | String c EmptyString => JsString.isWhiteSpace c
  | String _ rest => ends_with_space rest
  end.

(** Calls by kind, and their number in a list of calls. *)
Definition is_authClient (e : Effect) : bool :=
  match e with
  | authClient _ => true
  | _ => false
  end.

Definition is_navigate (e : Effect) : bool :=
  match e with
  | navigate _ => true
  | _ => false
  end.

Definition is_toast (e : Effect) : bool :=
  match e with
  | toast _ => true
  | _ => false
  end.

Definition is_capture (e : Effect) : bool :=
  match e with
  | analytics_capture _ _ => true
  | _ => false
  end.

Fixpoint count_calls (kind : Effect -> bool) (made : list Effect) : nat :=
  match made with
  | [] => 0
  | e :: rest => (if kind e then 1 else 0) + count_calls kind rest
  end.

Definition is_from_handleSubmit (o : Origin) : bool :=
  match o with
  | from_handleSubmit => true
  | _ => false
  end.

Section MoreViews.
Context {ext : Externals}.

(** A payload whose fields pass every rule of the schema. *)
Definition acceptable (p : SignUpPayload) : Prop :=
  JsString.trim (payload_name p) <> "" /\
  emailRegex_test (payload_email p) = true /\
  payload_email p <> "" /\
  ZPasswordSchema (payload_password p) = [] /\
  JsString.includes (payload_password p) (JsString.trim (payload_name p)) = false /\
  JsString.includes (payload_password p) (local_part (payload_email p)) = false.

(** Every [signUp] call of a list of calls has an acceptable payload. *)
Definition signUp_calls_acceptable (made : list Effect) : Prop :=
  Forall (fun e => match e with
                   | authClient (emailPassword_signUp p) => acceptable p
                   | _ => True
                   end) made.

(** The events that neither read [formState.isValid] nor run
    [form.trigger]: all but the submit event and a change of the
    signature. *)
Definition leaves_isValid (a : Action) : bool :=
  match a with
  | SubmitEvent => false
  | Change field_signature _ => false
  | _ => true
  end.

(** The parked handlers that [form.handleSubmit] started. *)
Definition handleSubmit_tasks (pg : Page) : list Task :=
  List.filter (fun t => is_from_handleSubmit (origin t)) (pending pg).

(** The message the form shows under a field after a full validation. *)
Definition shown (values : TSignUpFormSchema) (f : FieldName) : option string :=
  resolver_errors values !! field_key f.

Variable props : SignUpFormProps.
Variable searchParams : URLSearchParams.

(** The handlers parked at [await navigate]. *)
Definition awaits_navigate (t : Task) : bool :=
  is_navigate (call_of (awaited t)).

Definition navigate_pending (pg : Page) : nat :=
  length (List.filter awaits_navigate (pending pg)).

(** The calls with which a parked handler of the component runs to its
    end once the call it awaits has settled.  A resolved [signUp] does
    not end the handler. *)
Definition finishing_calls (c : Awaited) (o : Outcome) (now : Z)
    (made : list Effect) : Prop :=
  match c, o with
  | auth_call (emailPassword_signUp _), Resolved => False
  | auth_call (emailPassword_signUp _), Rejected err =>
      made = [toast (error_toast (classified_message err))]
  | auth_call _, Resolved => made = []
  | auth_call _, Rejected _ => made = [toast unknown_error_toast]
  | navigation _, Resolved =>
      exists values, made = [toast success_toast; capture_event searchParams values now]
  | navigation _, Rejected err =>
      made = [toast (error_toast (classified_message err))]
  end.

(** A parked handler that is [onFormSubmit values], at one of its two
    awaits. *)
Definition runs_on (values : TSignUpFormSchema) (t : Task) : Prop :=
  (awaited t = emailPassword_signUp (signUp_payload values) /\
   signUp_continuation searchParams values (resume t)) \/
  (awaited t = navigation "/unverified-account" /\
   navigate_continuation searchParams values (resume t)).

(** The six ways in which an event changes a page of a session: it
    touches the form only; the submit event finds [isValid] set and
    starts [onFormSubmit] on the values of the form; the Complete
    button starts it on the output of the schema and sets
    [isSubmitting]; a single sign-on button starts its handler; a
    handler whose [signUp] call resolved calls [navigate] and waits for
    it; or a parked handler runs to its end. *)
Inductive transition (now : Z) (pg pg' : Page) : Prop :=
| form_only :
    pending pg' = pending pg ->
    calls pg' = calls pg ->
    isSubmitting (form pg') = isSubmitting (form pg) ->
    (isSubmitting (form pg) = true -> getValues (form pg') = getValues (form pg)) ->
    transition now pg pg'
| onSubmit_started k :
    isValid (form pg) = true ->
    signUp_continuation searchParams (getValues (form pg)) k ->
    form pg' = form pg ->
    pending pg' =
      (pending pg ++
       [mkTask from_onSubmit
          (emailPassword_signUp (signUp_payload (getValues (form pg)))) k])%list ->
    calls pg' =
      (calls pg ++
       [authClient (emailPassword_signUp (signUp_payload (getValues (form pg))))])%list ->
    transition now pg pg'
| handleSubmit_started data k :
    isSubmitting (form pg) = false ->
    ZSignUpFormSchema (getValues (form pg)) = ParseSuccess data ->
    signUp_continuation searchParams data k ->
    getValues (form pg') = getValues (form pg) ->
    isSubmitting (form pg') = true ->
    pending pg' =
      (pending pg ++
       [mkTask from_handleSubmit (emailPassword_signUp (signUp_payload data)) k])%list ->
    calls pg' =
      (calls pg ++ [authClient (emailPassword_signUp (signUp_payload data))])%list ->
    transition now pg pg'
| sso_started (c : AuthCall) k :
    (c = google_signIn /\ truthy (isGoogleSSOEnabled props) = true \/
     c = oidc_signIn /\ truthy (isOIDCSSOEnabled props) = true) ->
    isSubmitting (form pg) = false ->
    form pg' = form pg ->
    pending pg' = (pending pg ++ [mkTask from_sso c k])%list ->
    calls pg' = (calls pg ++ [authClient c])%list ->
    transition now pg pg'
| handler_moved_on i t k :
    pending pg !! i = Some t ->
    awaits_signUp t = true ->
    (forall values, signUp_continuation searchParams values (resume t) ->
                    navigate_continuation searchParams values k) ->
    form pg' = form pg ->
    pending pg' =
      (delete i (pending pg) ++
       [mkTask (origin t) (navigation "/unverified-account") k])%list ->
    calls pg' = (calls pg ++ [navigate "/unverified-account"])%list ->
    transition now pg pg'
| handler_finished i t o made :
    pending pg !! i = Some t ->
    finishing_calls (awaited t) o now made ->
    form pg' = finished (origin t) (form pg) ->
    pending pg' = delete i (pending pg) ->
    calls pg' = (calls pg ++ made)%list ->
    transition now pg pg'.

End MoreViews.

(** * Properties *)

(** ** Dates *)

Example toISOString_epoch : JsDate.toISOString 0 = "1970-01-01T00:00:00.000Z".
Proof. reflexivity. Qed.

Example toISOString_1700000000123 :
  JsDate.toISOString 1700000000123 = "2023-11-14T22:13:20.123Z".
Proof. reflexivity. Qed.

Example toISOString_leap_day :
  JsDate.toISOString 1709251199999 = "2024-02-29T23:59:59.999Z".
Proof. reflexivity. Qed.

Example toISOString_before_epoch :
  JsDate.toISOString (-1) = "1969-12-31T23:59:59.999Z".
Proof. reflexivity. Qed.

(** ** Strings *)

Section StringFacts.
Import JsString.

Lemma append_nil_l (s : string) : "" ++ s = s.
Proof. reflexivity. Qed.

Lemma append_cons (c : ascii) (a b : string) : String c a ++ b = String c (a ++ b).
Proof. reflexivity. Qed.

Lemma append_nil_r (s : string) : s ++ "" = s.
Proof.
  induction s as [|c s IH]; [reflexivity | now rewrite append_cons, IH].
Qed.

Lemma append_assoc (a b c : string) : (a ++ b) ++ c = a ++ (b ++ c).
Proof.
  induction a as [|x a IH]; [reflexivity | now rewrite !append_cons, IH].
Qed.

Lemma append_length (a b : string) :
  String.length (a ++ b) = (String.length a + String.length b)%nat.
Proof.
  induction a as [|x a IH]; [reflexivity | rewrite append_cons; simpl; now rewrite IH].
Qed.

Lemma prefix_iff (sub s : string) :
  String.prefix sub s = true <-> exists b, s = sub ++ b.
Proof.
  revert s. induction sub as [|c sub IH]; intros s.
  - split; [intros _; exists s; reflexivity | intros _; now destruct s].
  - destruct s as [|d s]; simpl.
    + split; [discriminate | intros [b Hb]; discriminate].
    + destruct (ascii_dec c d) as [->|Hne].
      * rewrite IH. split; intros [b Hb]; exists b.
        -- now rewrite append_cons, <- Hb.
        -- rewrite append_cons in Hb. now injection Hb.
      * split; [discriminate |].
        intros [b Hb]. rewrite append_cons in Hb. injection Hb. congruence.
Qed.

Lemma includes_nil (sub : string) :
  includes "" sub = String.prefix sub "".
Proof. simpl. apply orb_false_r. Qed.

Lemma includes_cons (c : ascii) (s sub : string) :
  includes (String c s) sub = String.prefix sub (String c s) || includes s sub.
Proof. reflexivity. Qed.

(** [includes] finds exactly the strings that occur between a prefix
    and a suffix. *)
Lemma includes_iff (s sub : string) :
  includes s sub = true <-> exists a b, s = a ++ sub ++ b.
Proof.
  induction s as [|c s IH].
  - rewrite includes_nil, prefix_iff. split.
    + intros [b Hb]. exists "", b. exact Hb.
    + intros [a [b Hab]]. destruct a; [exists b; exact Hab | discriminate].
  - rewrite includes_cons, orb_true_iff, prefix_iff, IH. split.
    + intros [[b Hb] | [a [b Hab]]].
      * exists "", b. exact Hb.
      * exists (String c a), b. now rewrite append_cons, <- Hab.
    + intros [a [b Hab]]. destruct a as [|x a].
      * left. exists b. exact Hab.
      * right. exists a, b. rewrite append_cons in Hab. now injection Hab.
Qed.

Lemma includes_trans (s t u : string) :
  includes s t = true -> includes t u = true -> includes s u = true.
Proof.
  rewrite !includes_iff. intros [a [b ->]] [a' [b' ->]].
  exists (a ++ a'), (b' ++ b). now rewrite !append_assoc.
Qed.

Lemma includes_refl (s : string) : includes s s = true.
Proof. apply includes_iff. exists "", "". now rewrite append_nil_l, append_nil_r. Qed.

Lemma trimStart_suffix (s : string) : exists a, s = a ++ trimStart s.
Proof.
  induction s as [|c s [a IH]]; simpl.
  - exists "". reflexivity.
  - destruct (isWhiteSpace c).
    + exists (String c a). now rewrite append_cons, <- IH.
    + exists "". reflexivity.
Qed.

Lemma trimEnd_prefix (s : string) : exists b, s = trimEnd s ++ b.
Proof.
  induction s as [|c s [b IH]]; simpl.
  - exists "". reflexivity.
  - destruct (trimEnd s) as [|d r] eqn:E.
    + destruct (isWhiteSpace c).
      * exists (String c s). reflexivity.
      * exists s. reflexivity.
    + exists b. now rewrite append_cons, <- IH.
Qed.

(** The trimmed string occurs in the string it was trimmed from. *)
Lemma includes_trim (s : string) : includes s (trim s) = true.
Proof.
  apply includes_iff. unfold trim.
  destruct (trimStart_suffix s) as [a Ha].
  destruct (trimEnd_prefix (trimStart s)) as [b Hb].
  exists a, b. now rewrite <- Hb.
Qed.

Lemma trimEnd_idem (s : string) : trimEnd (trimEnd s) = trimEnd s.
Proof.
  induction s as [|c s IH]; simpl; [reflexivity |].
  destruct (trimEnd s) as [|d r] eqn:E.
  - destruct (isWhiteSpace c) eqn:W; simpl; [reflexivity | now rewrite W].
  - change (trimEnd (String c (String d r))) with
      (match trimEnd (String d r) with
       | "" => if isWhiteSpace c then "" else String c ""
       | r' => String c r'
       end).
    now rewrite IH.
Qed.

Lemma trimStart_trimEnd (s : string) :
  trimStart s = s -> trimStart (trimEnd s) = trimEnd s.
Proof.
  destruct s as [|c s]; simpl; [reflexivity |].
  destruct (isWhiteSpace c) eqn:W.
  - intros H. exfalso.
    destruct (trimStart_suffix s) as [a Ha].
    assert (L : String.length (trimStart s) = S (String.length s)) by now rewrite H.
    assert (L' : String.length s = (String.length a + String.length (trimStart s))%nat).
    { rewrite Ha at 1. apply append_length. }
    lia.
  - intros _. destruct (trimEnd s); simpl; now rewrite W.
Qed.

Lemma trimStart_idem (s : string) : trimStart (trimStart s) = trimStart s.
Proof.
  induction s as [|c s IH]; simpl; [reflexivity |].
  destruct (isWhiteSpace c) eqn:W; [exact IH | simpl; now rewrite W].
Qed.

(** Trimming is a projection. *)
Lemma trim_idem (s : string) : trim (trim s) = trim s.
Proof.
  unfold trim.
  rewrite (trimStart_trimEnd (trimStart s)) by apply trimStart_idem.
  apply trimEnd_idem.
Qed.

(** [split] always has a first piece. *)
Lemma split_first (sep : ascii) (s : string) :
  exists h t, split sep s = h :: t.
Proof.
  induction s as [|c s [h [t IH]]]; simpl.
  - now exists "", [].
  - destruct (Ascii.eqb c sep); [now exists "", (split sep s) |].
    rewrite IH. now exists (String c h), t.
Qed.

End StringFacts.

(** ** The validation schema *)

Section SchemaFacts.
Context {ext : Externals}.
Import JsString.

Lemma name_schema_eq (raw : string) :
  name_schema raw =
    (trim raw,
     if (String.length (trim raw) <? 1)%nat then [msg_id msg_valid_name] else []).
Proof. reflexivity. Qed.

Lemma email_schema_eq (e : string) :
  email_schema e =
    (e, if emailRegex_test e
        then (if (String.length e <? 1)%nat then [Zod.default_min1_message] else [])
        else Zod.default_email_message ::
             (if (String.length e <? 1)%nat then [Zod.default_min1_message] else [])).
Proof. reflexivity. Qed.

Lemma ZSignUpFormSchema_eq (input : TSignUpFormSchema) :
  ZSignUpFormSchema input =
    match (field_issues input ++
           if refinement (parsed input) then [] else [refine_issue])%list with
    | [] => ParseSuccess (parsed input)
    | issues => ParseError issues
    end.
Proof.
  unfold ZSignUpFormSchema, field_issues, parsed.
  rewrite name_schema_eq, email_schema_eq. reflexivity.
Qed.

Lemma length_lt_1 (s : string) : (String.length s <? 1)%nat = true <-> s = "".
Proof. destruct s; simpl; split; intros H; try reflexivity; discriminate. Qed.

Lemma field_issues_nil (input : TSignUpFormSchema) :
  field_issues input = [] <->
  trim (name input) <> "" /\ emailRegex_test (email input) = true /\
  email input <> "" /\ ZPasswordSchema (password input) = [].
Proof.
  unfold field_issues. rewrite name_schema_eq, email_schema_eq. simpl.
  destruct (trim (name input)) as [|c n] eqn:En; simpl.
  - split; [discriminate | intros [H _]; congruence].
  - destruct (emailRegex_test (email input)); simpl.
    + destruct (email input) as [|d e]; simpl.
      * split; [discriminate | intros (_ & _ & H & _); congruence].
      * destruct (ZPasswordSchema (password input)); simpl.
        -- split; [intros _; repeat split; discriminate | reflexivity].
        -- split; [discriminate | intros (_ & _ & _ & H); discriminate].
    + split; [discriminate | intros (_ & H & _); discriminate].
Qed.

Lemma success_iff (input : TSignUpFormSchema) :
  success (ZSignUpFormSchema input) = true <->
  field_issues input = [] /\ refinement (parsed input) = true.
Proof.
  rewrite ZSignUpFormSchema_eq.
  destruct (field_issues input) as [|i l]; simpl.
  - destruct (refinement (parsed input)); simpl; split; intros H;
      try (destruct H); try split; congruence.
  - split; [discriminate | intros [H _]; discriminate].
Qed.

Lemma success_data (input data : TSignUpFormSchema) :
  ZSignUpFormSchema input = ParseSuccess data -> data = parsed input.
Proof.
  rewrite ZSignUpFormSchema_eq.
  destruct (_ ++ _)%list; intros H; [now injection H | discriminate].
Qed.

Lemma refinement_iff (data : TSignUpFormSchema) :
  refinement data = true <->
  includes (password data) (name data) = false /\
  includes (password data) (first (split "@" (email data))) = false.
Proof.
  unfold refinement. rewrite andb_true_iff, !negb_true_iff. reflexivity.
Qed.

(** Whatever the fields raised, a failed refinement adds its issue at
    the end. *)
Lemma refinement_fails (input : TSignUpFormSchema) :
  refinement (parsed input) = false ->
  ZSignUpFormSchema input = ParseError (field_issues input ++ [refine_issue]).
Proof.
  intros H. rewrite ZSignUpFormSchema_eq, H.
  destruct (field_issues input); reflexivity.
Qed.

Lemma raw_name_contained (input : TSignUpFormSchema) :
  includes (password input) (name input) = true ->
  includes (password input) (trim (name input)) = true.
Proof. intros H. eapply includes_trans; [exact H | apply includes_trim]. Qed.

Lemma to_errors_lookup (issues : list Zod.ZodIssue) (i : Zod.ZodIssue) :
  In i issues -> is_Some (to_errors issues !! join_path (Zod.path i)).
Proof.
  induction issues as [|j issues IH]; simpl; [tauto |].
  intros [-> | Hin].
  - rewrite lookup_insert_eq. eauto.
  - destruct (decide (join_path (Zod.path j) = join_path (Zod.path i))) as [E | N].
    + rewrite E, lookup_insert_eq. eauto.
    + rewrite lookup_insert_ne by exact N. auto.
Qed.

Lemma to_errors_empty (issues : list Zod.ZodIssue) :
  to_errors issues = ∅ <-> issues = [].
Proof.
  split; [| intros ->; reflexivity].
  destruct issues as [|i issues]; [reflexivity |]. simpl. intros H.
  apply (f_equal (fun m => m !! join_path (Zod.path i))) in H.
  rewrite lookup_insert_eq, lookup_empty in H. discriminate.
Qed.

Lemma resolver_errors_empty (values : TSignUpFormSchema) :
  bool_decide (resolver_errors values = ∅) = success (ZSignUpFormSchema values).
Proof.
  unfold resolver_errors.
  destruct (ZSignUpFormSchema values) as [data | issues] eqn:E; simpl.
  - now apply bool_decide_eq_true_2.
  - apply bool_decide_eq_false_2. rewrite to_errors_empty. intros ->.
    rewrite ZSignUpFormSchema_eq in E.
    destruct (_ ++ _)%list; discriminate.
Qed.

End SchemaFacts.

(** ** The handlers *)

Section HandlerFacts.
Context {ext : Externals}.
Variable searchParams : URLSearchParams.

Lemma utmSrc_eq : utmSrc searchParams = URLSearchParams_get "utm_source" searchParams.
Proof. unfold utmSrc, nullish. now destruct (URLSearchParams_get _ _). Qed.

(** [onFormSubmit] makes the [signUp] call and stops at the await. *)
Lemma exec_onFormSubmit (now : Z) (values : TSignUpFormSchema) :
  exists k,
    exec now (onFormSubmit searchParams values) =
      ([authClient (emailPassword_signUp (signUp_payload values))],
       Suspended (emailPassword_signUp (signUp_payload values)) k) /\
    signUp_continuation searchParams values k.
Proof.
  eexists. split; [reflexivity |].
  split; intros; [| reflexivity].
  eexists. split; [reflexivity |].
  split; intros; simpl; unfold capture_event; rewrite ?utmSrc_eq; reflexivity.
Qed.

Lemma exec_onSignUpWithGoogleClick (now : Z) :
  exists k,
    exec now onSignUpWithGoogleClick =
      ([authClient google_signIn], Suspended google_signIn k) /\
    sso_continuation k.
Proof. eexists. split; [reflexivity |]. split; intros; reflexivity. Qed.

Lemma exec_onSignUpWithOIDCClick (now : Z) :
  exists k,
    exec now onSignUpWithOIDCClick =
      ([authClient oidc_signIn], Suspended oidc_signIn k) /\
    sso_continuation k.
Proof. eexists. split; [reflexivity |]. split; intros; reflexivity. Qed.

(** The whole of [onFormSubmit] against a given authentication client. *)
Lemma run_onFormSubmit (auth : AuthCall -> Outcome) (now : Z)
    (values : TSignUpFormSchema) :
  run auth now (onFormSubmit searchParams values) =
    (authClient (emailPassword_signUp (signUp_payload values)) ::
     match auth (emailPassword_signUp (signUp_payload values)) with
     | Resolved =>
         [navigate "/unverified-account"; toast success_toast;
          capture_event searchParams values now]
     | Rejected err => [toast (error_toast (classified_message err))]
     end, inl tt).
Proof.
  simpl. destruct (auth _); simpl; unfold capture_event; rewrite ?utmSrc_eq;
    reflexivity.
Qed.

Lemma run_sso (auth : AuthCall -> Outcome) (now : Z) :
  run auth now onSignUpWithGoogleClick =
    (authClient google_signIn ::
     match auth google_signIn with
     | Resolved => []
     | Rejected _ => [toast unknown_error_toast]
     end, inl tt) /\
  run auth now onSignUpWithOIDCClick =
    (authClient oidc_signIn ::
     match auth oidc_signIn with
     | Resolved => []
     | Rejected _ => [toast unknown_error_toast]
     end, inl tt).
Proof. split; simpl; destruct (auth _); reflexivity. Qed.

(** The three keys of the table. *)
Lemma signupErrorMessages_lookup (c : string) :
  signupErrorMessages !! c =
    if decide (AppErrorCode_INVALID_REQUEST = c) then Some msg_invalid_request
    else if decide (AppErrorCode_ALREADY_EXISTS = c) then Some msg_already_exists
    else if decide ("SIGNUP_DISABLED" = c) then Some msg_signups_disabled
    else None.
Proof.
  unfold signupErrorMessages.
  rewrite !lookup_insert, lookup_empty. reflexivity.
Qed.

(** A key the table has is read from the table itself. *)
Lemma get_property_own {A} (obj : gmap string A) (key : string) (a : A) :
  obj !! key = Some a -> get_property obj key = Some (own a).
Proof. intros H. unfold get_property. now rewrite H. Qed.

(** A key that neither the table nor [Object.prototype] has reads as
    [undefined]. *)
Lemma get_property_undefined {A} (obj : gmap string A) (key : string) :
  obj !! key = None -> key ∉ Object_prototype_keys ->
  get_property obj key = None.
Proof.
  intros H N. unfold get_property. rewrite H.
  now rewrite bool_decide_eq_false_2.
Qed.

(** A key of [Object.prototype] that the table does not shadow reads as
    the inherited member. *)
Lemma get_property_inherited {A} (obj : gmap string A) (key : string) :
  obj !! key = None -> key ∈ Object_prototype_keys ->
  get_property obj key = Some (inherited key).
Proof.
  intros H N. unfold get_property. rewrite H.
  now rewrite bool_decide_eq_true_2.
Qed.

End HandlerFacts.

(** ** ISO-8601 shape of [toISOString] *)

Section DateFacts.
Import JsDate.





End DateFacts.

(** ** Invariants of the page *)

Section PageFacts.
Context {ext : Externals}.
Variable props : SignUpFormProps.
Variable searchParams : URLSearchParams.
Variable hashParams : URLSearchParams.

Local Abbreviation step := (step props searchParams).
Local Abbreviation reachable := (reachable props searchParams hashParams).
Local Abbreviation run_session := (session props searchParams hashParams).
Local Abbreviation task_ok := (task_ok searchParams).
Local Abbreviation page_inv := (page_inv searchParams).
Local Abbreviation transition := (transition props searchParams).
Local Abbreviation finishing_calls := (finishing_calls searchParams).
Local Abbreviation runs_on := (runs_on searchParams).

Lemma advance_Done now o p pg made :
  exec now p = (made, Done) ->
  advance now o p pg =
    {| form := finished o (form pg); pending := pending pg;
       calls := (calls pg ++ made)%list; uncaught := uncaught pg;
       watchesIsValid := watchesIsValid pg |}.
Proof. intros H. unfold advance. now rewrite H. Qed.

Lemma advance_Suspended now o p pg made c k :
  exec now p = (made, Suspended c k) ->
  advance now o p pg =
    {| form := form pg; pending := (pending pg ++ [mkTask o c k])%list;
       calls := (calls pg ++ made)%list; uncaught := uncaught pg;
       watchesIsValid := watchesIsValid pg |}.
Proof. intros H. unfold advance. now rewrite H. Qed.

(** When the call a parked handler awaits settles, the handler runs to
    its end, unless the call is a [signUp] that resolved: then the
    handler calls [navigate] and waits for it.  It throws nothing. *)
Lemma task_resumes now o (t : Task) :
  task_ok t ->
  (exists made, exec now (resume t o) = (made, Done) /\
                finishing_calls (awaited t) o now made) \/
  (awaits_signUp t = true /\ o = Resolved /\ origin t <> from_sso /\
   exists k,
     exec now (resume t o) =
       ([navigate "/unverified-account"],
        Suspended (navigation "/unverified-account") k) /\
     (exists values, navigate_continuation searchParams values k) /\
     (forall values, signUp_continuation searchParams values (resume t) ->
                     navigate_continuation searchParams values k)).
Proof.
  unfold task_ok, awaits_signUp.
  destruct (awaited t) as [[p | |] | to]; simpl.
  - intros (Ho & values & _ & Hres & Hrej). destruct o as [| err].
    + right. destruct (Hres now) as (k & He & Hk).
      repeat split; [exact Ho |]. exists k.
      split; [exact He | split; [now exists values |]].
      intros values' [Hres' _]. destruct (Hres' now) as (k' & He' & Hk').
      rewrite He in He'. now injection He' as <-.
    + left. eauto.
  - intros (_ & Hres & Hrej). left. destruct o; eauto.
  - intros (_ & Hres & Hrej). left. destruct o; eauto.
  - intros (_ & _ & values & Hres & Hrej). left. destruct o; eauto.
Qed.

Lemma mount_invalid :
  success (ZSignUpFormSchema (getValues (mount props hashParams))) = false.
Proof.
  apply not_true_is_false. rewrite success_iff, field_issues_nil.
  intros [(Hname & _) _]. apply Hname. unfold mount. simpl.
  destruct (URLSearchParams_get "email" hashParams) as [[|c e]|]; reflexivity.
Qed.

Lemma trigger_synced fs :
  isValid (trigger fs) = success (ZSignUpFormSchema (getValues (trigger fs))).
Proof. unfold trigger. simpl. apply resolver_errors_empty. Qed.

(** An edit that recomputes [isValid] leaves it in step with the
    values, unless the form is submitting. *)
Lemma change_synced watched f v fs :
  recomputes_isValid watched f = true ->
  isSubmitting fs = false ->
  isValid (change watched f v fs) =
    success (ZSignUpFormSchema (getValues (change watched f v fs))).
Proof.
  intros Hw Hs. unfold change. rewrite Hs, Hw. simpl.
  apply resolver_errors_empty.
Qed.

(** An edit that does not recompute [isValid] leaves it as it was. *)
Lemma change_stale f v fs :
  recomputes_isValid false f = false ->
  isValid (change false f v fs) = isValid fs.
Proof.
  intros Hw. unfold change. destruct (isSubmitting fs); [reflexivity |].
  now rewrite Hw.
Qed.

Lemma change_isSubmitting watched f v fs :
  isSubmitting (change watched f v fs) = isSubmitting fs.
Proof. unfold change. destruct (isSubmitting fs) eqn:E; [exact E | reflexivity]. Qed.

Lemma change_submitting watched f v fs :
  isSubmitting fs = true -> change watched f v fs = fs.
Proof. intros H. unfold change. now rewrite H. Qed.

Lemma finished_values o fs :
  getValues (finished o fs) = getValues fs /\ isValid (finished o fs) = isValid fs.
Proof. destruct o; split; reflexivity. Qed.

Lemma advance_inv now o p pg c made k :
  exec now p = (made, Suspended c k) ->
  task_ok (mkTask o c k) ->
  page_inv pg -> page_inv (advance now o p pg).
Proof.
  intros He Ht (Hp & Hu). rewrite (advance_Suspended _ _ _ _ _ _ _ He).
  split; simpl; [| exact Hu].
  apply Forall_app. split; [exact Hp | now constructor].
Qed.

Lemma step_inv now a pg : page_inv pg -> page_inv (step now a pg).
Proof.
  intros Hinv. pose proof Hinv as (Hp & Hu). destruct a; simpl.
  - exact Hinv.
  - destruct (isValid (form pg)).
    + destruct (exec_onFormSubmit searchParams now (getValues (form pg)))
        as (k & He & Hk).
      eapply advance_inv; [exact He | | exact Hinv].
      split; [discriminate | eauto].
    + exact Hinv.
  - destruct (isSubmitting (form pg)); [exact Hinv |].
    destruct (ZSignUpFormSchema (getValues (form pg))) as [data | issues] eqn:E.
    + destruct (exec_onFormSubmit searchParams now data) as (k & He & Hk).
      eapply advance_inv; [exact He | | exact Hinv].
      split; [discriminate | eauto].
    + exact Hinv.
  - destruct (_ && _); [| exact Hinv].
    destruct (exec_onSignUpWithGoogleClick now) as (k & He & Hk).
    eapply advance_inv; [exact He | | exact Hinv]. now split.
  - destruct (_ && _); [| exact Hinv].
    destruct (exec_onSignUpWithOIDCClick now) as (k & He & Hk).
    eapply advance_inv; [exact He | | exact Hinv]. now split.
  - destruct (pending pg !! i) as [t |] eqn:Ei; [| exact Hinv].
    assert (Ht : task_ok t).
    { rewrite Forall_forall in Hp. apply Hp. eapply list_elem_of_lookup_2. exact Ei. }
    assert (Hinv' : page_inv (unpark i pg)).
    { split; simpl; [now apply Forall_delete | exact Hu]. }
    destruct (task_resumes now o t Ht)
      as [(made & He & _) | (_ & _ & Ho & k & He & (values & Hk) & _)].
    + rewrite (advance_Done _ _ _ _ _ He).
      split; simpl; [now apply Forall_delete | exact Hu].
    + eapply advance_inv; [exact He | | exact Hinv'].
      unfold task_ok. simpl. eauto.
Qed.

Lemma reachable_inv pg : reachable pg -> page_inv pg.
Proof.
  induction 1 as [| pg now a _ IH].
  - split; simpl; [constructor | reflexivity].
  - now apply step_inv.
Qed.

Lemma pending_task_ok (pg : Page) (i : nat) (t : Task) :
  page_inv pg -> pending pg !! i = Some t -> task_ok t.
Proof.
  intros (Hp & _) Ei. rewrite Forall_forall in Hp. apply Hp.
  eapply list_elem_of_lookup_2. exact Ei.
Qed.

(** Every event of a session is one of the six transitions. *)
Lemma step_transition now a pg : page_inv pg -> transition now pg (step now a pg).
Proof.
  intros Hinv. pose proof Hinv as (Hp & Hu). destruct a; simpl.
  - apply form_only; simpl; try reflexivity.
    + apply change_isSubmitting.
    + intros Hs. now rewrite change_submitting.
  - destruct (isValid (form pg)) eqn:Ev.
    + destruct (exec_onFormSubmit searchParams now (getValues (form pg)))
        as (k & He & Hk).
      rewrite (advance_Suspended _ _ _ _ _ _ _ He).
      eapply onSubmit_started; simpl; try reflexivity; assumption.
    + apply form_only; simpl; try reflexivity.
  - destruct (isSubmitting (form pg)) eqn:Es.
    + apply form_only; try reflexivity.
    + destruct (ZSignUpFormSchema (getValues (form pg))) as [data | issues] eqn:E.
      * destruct (exec_onFormSubmit searchParams now data) as (k & He & Hk).
        rewrite (advance_Suspended _ _ _ _ _ _ _ He).
        eapply handleSubmit_started; simpl; try reflexivity; eassumption.
      * apply form_only; simpl; try reflexivity.
  - destruct (truthy _) eqn:Et; simpl; [| apply form_only; reflexivity].
    destruct (isSubmitting (form pg)) eqn:Es; simpl; [apply form_only; reflexivity |].
    destruct (exec_onSignUpWithGoogleClick now) as (k & He & Hk).
    rewrite (advance_Suspended _ _ _ _ _ _ _ He).
    eapply sso_started; simpl; try reflexivity; [left; now split | exact Es].
  - destruct (truthy _) eqn:Et; simpl; [| apply form_only; reflexivity].
    destruct (isSubmitting (form pg)) eqn:Es; simpl; [apply form_only; reflexivity |].
    destruct (exec_onSignUpWithOIDCClick now) as (k & He & Hk).
    rewrite (advance_Suspended _ _ _ _ _ _ _ He).
    eapply sso_started; simpl; try reflexivity; [right; now split | exact Es].
  - destruct (pending pg !! i) as [t |] eqn:Ei; [| apply form_only; reflexivity].
    pose proof (pending_task_ok _ _ _ Hinv Ei) as Ht.
    destruct (task_resumes now o t Ht)
      as [(made & He & Hm) | (Ha & _ & _ & k & He & _ & Hk)].
    + rewrite (advance_Done _ _ _ _ _ He).
      eapply handler_finished; simpl; try reflexivity; eassumption.
    + rewrite (advance_Suspended _ _ _ _ _ _ _ He).
      eapply handler_moved_on with (i := i) (t := t) (k := k); simpl;
        try reflexivity; assumption.
Qed.

(** A property of the first page that every transition from a page of
    a session preserves holds of every page of every session. *)
Lemma reachable_invariant (P : Page -> Prop) :
  P (initial props hashParams) ->
  (forall now pg pg', page_inv pg -> P pg -> transition now pg pg' -> P pg') ->
  forall pg, reachable pg -> P pg.
Proof.
  intros H0 Hstep pg Hr. induction Hr as [| pg now a Hr IH]; [exact H0 |].
  pose proof (reachable_inv pg Hr) as Hinv.
  apply (Hstep now pg); [exact Hinv | exact IH |].
  now apply step_transition.
Qed.

(** Every page of [session] is a page of a session. *)
Lemma session_reachable (events : list (Z * Action)) :
  reachable (run_session events).
Proof.
  unfold session. rewrite <- fold_left_rev_right.
  induction (rev events) as [| [now a] l IH]; simpl.
  - apply reachable_initial.
  - now apply reachable_step.
Qed.

Lemma signUp_pending_app (pg : Page) (t : Task) (l : list Task) :
  pending pg = (l ++ [t])%list ->
  length (filter (fun t => awaits_signUp t = true) (pending pg)) =
    (length (filter (fun t => awaits_signUp t = true) l) +
     if awaits_signUp t then 1 else 0)%nat.
Proof.
  intros ->. rewrite filter_app, length_app. f_equal.
  destruct (awaits_signUp t) eqn:E.
  - now rewrite filter_cons_True.
  - rewrite filter_cons_False; [reflexivity | congruence].
Qed.

Lemma filter_delete_length (l : list Task) (i : nat) (t : Task) :
  l !! i = Some t ->
  length (filter (fun t => awaits_signUp t = true) l) =
    (length (filter (fun t => awaits_signUp t = true) (delete i l)) +
     if awaits_signUp t then 1 else 0)%nat.
Proof.
  revert i. induction l as [|x l IH]; intros i H; [discriminate |].
  destruct i as [|i]; simpl in *.
  - injection H as ->. destruct (awaits_signUp t) eqn:E.
    + rewrite filter_cons_True by exact E. simpl. lia.
    + rewrite filter_cons_False by congruence. lia.
  - specialize (IH i H). destruct (awaits_signUp x) eqn:E.
    + rewrite !filter_cons_True by exact E. simpl. lia.
    + rewrite !filter_cons_False by congruence. exact IH.
Qed.

Lemma filter_bool_delete_length (f : Task -> bool) (l : list Task) (i : nat) (t : Task) :
  l !! i = Some t ->
  length (List.filter f l) =
    (length (List.filter f (delete i l)) + if f t then 1 else 0)%nat.
Proof.
  revert i. induction l as [|x l IH]; intros i H; [discriminate |].
  destruct i as [|i]; simpl in *.
  - injection H as ->. destruct (f t); simpl; lia.
  - specialize (IH i H). destruct (f x); simpl; lia.
Qed.

Lemma filter_bool_none (f : Task -> bool) (Q : Task -> Prop) (l : list Task) :
  length (List.filter f l) = 0 -> Forall (fun t => f t = true -> Q t) l.
Proof.
  induction l as [|x l IH]; simpl; [constructor |].
  destruct (f x) eqn:E; simpl; [discriminate |].
  intros H. constructor; [congruence | now apply IH].
Qed.

Lemma filter_bool_le (f g : Task -> bool) (l : list Task) :
  Forall (fun t => f t = true -> g t = true) l ->
  length (List.filter f l) <= length (List.filter g l).
Proof.
  induction 1 as [| x l Hx _ IH]; simpl; [lia |].
  destruct (f x); [rewrite (Hx eq_refl); simpl; lia |].
  destruct (g x); simpl; lia.
Qed.

Lemma signUp_pending_bool (pg : Page) :
  signUp_pending pg = length (List.filter awaits_signUp (pending pg)).
Proof.
  unfold signUp_pending. induction (pending pg) as [| x l IH]; [reflexivity |].
  simpl. destruct (awaits_signUp x) eqn:E.
  - rewrite filter_cons_True by exact E. simpl. now rewrite IH.
  - rewrite filter_cons_False by congruence. exact IH.
Qed.

Lemma awaits_signUp_awaited (t : Task) :
  awaits_signUp t =
    match awaited t with
    | auth_call (emailPassword_signUp _) => true
    | _ => false
    end.
Proof. unfold awaits_signUp. now destruct (awaited t) as [[| |] |]. Qed.

(** What the form and the handlers started by [form.handleSubmit] have
    in common on every page. *)
Lemma handleSubmit_invariant (pg : Page) :
  reachable pg ->
  length (handleSubmit_tasks pg) = (if isSubmitting (form pg) then 1 else 0) /\
  Forall (fun t => is_from_handleSubmit (origin t) = true ->
                   runs_on (parsed (getValues (form pg))) t)
         (pending pg).
Proof.
  revert pg.
  apply (reachable_invariant (fun pg =>
    length (handleSubmit_tasks pg) = (if isSubmitting (form pg) then 1 else 0) /\
    Forall (fun t => is_from_handleSubmit (origin t) = true ->
                     runs_on (parsed (getValues (form pg))) t)
           (pending pg)));
    [split; [reflexivity | constructor] |].
  intros now pg0 pg' Hinv [Hn Hall] Ht. unfold handleSubmit_tasks in *.
  destruct Ht as [Hp _ Hs Hv | k _ _ Hf Hp _ | data k Hs E Hk Hv Hs' Hp _
                 | c k _ _ Hf Hp _ | i t k Ei Ha Hk Hf Hp _ | i t o made Ei _ Hf Hp _];
    rewrite Hp.
  - rewrite Hs. split; [exact Hn |].
    destruct (isSubmitting (form pg0)) eqn:Es.
    + now rewrite (Hv eq_refl).
    + now apply filter_bool_none.
  - rewrite Hf, List.filter_app, length_app. simpl. split; [lia |].
    apply Forall_app. split; [exact Hall | constructor; [discriminate | constructor]].
  - rewrite Hs', Hv, List.filter_app, length_app. rewrite Hs in Hn. simpl.
    split; [lia |]. apply Forall_app. split; [now apply filter_bool_none |].
    constructor; [| constructor]. intros _. left. simpl.
    rewrite <- (success_data _ _ E). now split.
  - rewrite Hf, List.filter_app, length_app. simpl. split; [lia |].
    apply Forall_app. split; [exact Hall | constructor; [discriminate | constructor]].
  - pose proof (filter_bool_delete_length (fun t => is_from_handleSubmit (origin t))
                 _ _ _ Ei) as Hc.
    rewrite Hf, List.filter_app, length_app. simpl. split.
    + destruct (is_from_handleSubmit (origin t)); simpl; lia.
    + apply Forall_app. split; [now apply Forall_delete |].
      constructor; [| constructor]. simpl. intros Ho. right.
      split; [reflexivity |]. apply Hk.
      rewrite Forall_forall in Hall.
      destruct (Hall t (list_elem_of_lookup_2 _ _ _ Ei) Ho) as [[_ H] | [H _]];
        [exact H |].
      rewrite awaits_signUp_awaited, H in Ha. discriminate.
  - pose proof (filter_bool_delete_length (fun t => is_from_handleSubmit (origin t))
                 _ _ _ Ei) as Hc.
    rewrite Hf. destruct (finished_values (origin t) (form pg0)) as [Ev _].
    rewrite Ev. split; [| now apply Forall_delete].
    set (n := length (List.filter _ (pending pg0))) in *.
    set (m := length (List.filter _ (delete i (pending pg0)))) in *.
    cbv beta in Hc. revert Hc. destruct (origin t); simpl; intros Hc;
      destruct (isSubmitting (form pg0)); lia.
Qed.

(** In a session without submit events on the form no handler was
    started by the [onSubmit] handler of the form. *)
Lemma no_onSubmit_task (events : list (Z * Action)) :
  Forall (fun ev => snd ev <> SubmitEvent) events ->
  Forall (fun t => origin t <> from_onSubmit) (pending (run_session events)).
Proof.
  intros Hev. unfold session. rewrite <- fold_left_rev_right.
  assert (Hr : forall l, reachable (fold_right (fun ev pg => let '(now, a) := ev in step now a pg)
                                      (initial props hashParams) l)).
  { induction l as [| [now a] l IH]; simpl;
      [apply reachable_initial | now apply reachable_step]. }
  apply Forall_rev in Hev. induction Hev as [| [now a] l Ha _ IH]; [constructor |].
  simpl in Ha. cbn [fold_right].
  set (pg := fold_right _ _ l) in *.
  pose proof (reachable_inv pg (Hr l)) as Hinv.
  destruct a; simpl; [exact IH | congruence | ..].
  - destruct (isSubmitting (form pg)); [exact IH |].
    destruct (ZSignUpFormSchema (getValues (form pg))) as [data | issues];
      [| exact IH].
    destruct (exec_onFormSubmit searchParams now data) as (k & He & _).
    rewrite (advance_Suspended _ _ _ _ _ _ _ He). simpl.
    apply Forall_app. split; [exact IH | constructor; [discriminate | constructor]].
  - destruct (_ && _); [| exact IH].
    destruct (exec_onSignUpWithGoogleClick now) as (k & He & _).
    rewrite (advance_Suspended _ _ _ _ _ _ _ He). simpl.
    apply Forall_app. split; [exact IH | constructor; [discriminate | constructor]].
  - destruct (_ && _); [| exact IH].
    destruct (exec_onSignUpWithOIDCClick now) as (k & He & _).
    rewrite (advance_Suspended _ _ _ _ _ _ _ He). simpl.
    apply Forall_app. split; [exact IH | constructor; [discriminate | constructor]].
  - destruct (pending pg !! i) as [t |] eqn:Ei; [| exact IH].
    pose proof (pending_task_ok _ _ _ Hinv Ei) as Ht.
    assert (Ho : origin t <> from_onSubmit).
    { rewrite Forall_forall in IH. apply IH. eapply list_elem_of_lookup_2. exact Ei. }
    destruct (task_resumes now o t Ht)
      as [(made & He & _) | (_ & _ & _ & k & He & _)].
    + rewrite (advance_Done _ _ _ _ _ He). simpl. now apply Forall_delete.
    + rewrite (advance_Suspended _ _ _ _ _ _ _ He). simpl.
      apply Forall_app. split; [now apply Forall_delete |].
      constructor; [exact Ho | constructor].
Qed.

(** In a session without submit events on the form, every awaited
    [signUp] call was started by [form.handleSubmit], at most one is
    awaited at any time, and none unless the form is submitting: the
    Complete button is disabled for as long as one is. *)
Lemma complete_button_serialises (events : list (Z * Action)) :
  Forall (fun ev => snd ev <> SubmitEvent) events ->
  serialised (run_session events) /\ signUp_pending (run_session events) <= 1.
Proof.
  intros Hev. pose proof (no_onSubmit_task events Hev) as Hno.
  pose proof (session_reachable events) as Hr.
  pose proof (reachable_inv _ Hr) as [Hp _].
  destruct (handleSubmit_invariant _ Hr) as [Hn _].
  assert (Hall : Forall (fun t => awaits_signUp t = true ->
                                  is_from_handleSubmit (origin t) = true)
                        (pending (run_session events))).
  { rewrite Forall_forall in *. intros t Hin Ha.
    specialize (Hno t Hin). specialize (Hp t Hin).
    unfold task_ok in Hp. rewrite awaits_signUp_awaited in Ha.
    destruct (awaited t) as [[p | |] |]; try discriminate.
    destruct Hp as [Hs _]. now destruct (origin t). }
  pose proof (filter_bool_le _ _ _ Hall) as Hle.
  rewrite <- signUp_pending_bool in Hle. unfold handleSubmit_tasks in Hn.
  rewrite Hn in Hle.
  split; [split |].
  - eapply Forall_impl; [exact Hall |]. intros t H Ha. cbv beta in H.
    specialize (H Ha). now destruct (origin t).
  - exact Hle.
  - destruct (isSubmitting _); lia.
Qed.

End PageFacts.

(** * The claims about the validation schema *)

Section SchemaClaims.
Context {ext : Externals}.
Import JsString.

(** C1, as amended.  For every input whose name is non-empty after
    trimming, whose e-mail passes the e-mail check and is non-empty,
    and whose password passes the strength policy, the schema
    succeeds if and only if the password contains neither the TRIMMED
    name nor the local part of the e-mail; on success the output is
    the input with its name trimmed; and when the password contains
    the trimmed name, the name as typed, or the local part, the parse
    fails with exactly one issue, the one scoped to [password]. *)
Theorem schema_valid_iff_no_personal_information (input : TSignUpFormSchema) :
  trim (name input) <> "" ->
  emailRegex_test (email input) = true ->
  email input <> "" ->
  ZPasswordSchema (password input) = [] ->
  (success (ZSignUpFormSchema input) = true <->
     includes (password input) (trim (name input)) = false /\
     includes (password input) (local_part (email input)) = false) /\
  (success (ZSignUpFormSchema input) = true ->
     ZSignUpFormSchema input = ParseSuccess (parsed input)) /\
  (includes (password input) (trim (name input)) = true \/
   includes (password input) (name input) = true \/
   includes (password input) (local_part (email input)) = true ->
     ZSignUpFormSchema input = ParseError [refine_issue]).
Proof.
  intros Hname Hemail Hne Hpw.
  assert (Hf : field_issues input = []) by now apply field_issues_nil.
  split; [| split].
  - rewrite success_iff, refinement_iff. simpl. fold (local_part (email input)).
    tauto.
  - intros H. destruct (ZSignUpFormSchema input) as [data |] eqn:E; [| discriminate].
    now rewrite (success_data _ _ E).
  - intros H.
    assert (Hr : refinement (parsed input) = false).
    { apply not_true_is_false. rewrite refinement_iff. simpl.
      fold (local_part (email input)). intros [H1 H2].
      destruct H as [H | [H | H]]; [congruence | | congruence].
      apply raw_name_contained in H. congruence. }
    rewrite (refinement_fails _ Hr), Hf. reflexivity.
Qed.

(** C2.  Whenever the password contains the name, or the local part of
    the e-mail, the parse fails whatever the other fields raised: the
    issues are those of the fields followed by the issue of the
    refinement, whose path is [password], and the form shows a message
    under the password field. *)
Theorem password_with_personal_information_fails (input : TSignUpFormSchema) :
  includes (password input) (name input) = true \/
  includes (password input) (local_part (email input)) = true ->
  ZSignUpFormSchema input = ParseError (field_issues input ++ [refine_issue])%list /\
  Zod.path refine_issue = ["password"] /\
  is_Some (resolver_errors input !! "password").
Proof.
  intros H.
  assert (Hr : refinement (parsed input) = false).
  { apply not_true_is_false. rewrite refinement_iff. simpl.
    fold (local_part (email input)). intros [H1 H2].
    destruct H as [H | H]; [| congruence].
    apply raw_name_contained in H. congruence. }
  pose proof (refinement_fails _ Hr) as E.
  split; [exact E | split; [reflexivity |]].
  unfold resolver_errors. rewrite E. simpl.
  apply (to_errors_lookup _ refine_issue).
  apply in_or_app. right. now left.
Qed.

(** C9.  Validation is a function of the values alone: run on two
    forms holding the same values, whatever else their state, it
    yields the same verdict and the same messages, namely those of
    the schema; run twice in a row it changes nothing more; it leaves
    the values and the submission flag alone; on a page it makes no
    call, parks no handler and raises no error; and the output of a
    successful parse parses to itself. *)
Theorem validation_is_pure (values : TSignUpFormSchema)
    (valid1 valid2 submitting1 submitting2 : bool)
    (errors1 errors2 : gmap string string) (pg : Page) :
  let fs1 := mkForm values valid1 submitting1 errors1 in
  let fs2 := mkForm values valid2 submitting2 errors2 in
  (isValid (trigger fs1) = isValid (trigger fs2) /\
   errors (trigger fs1) = errors (trigger fs2)) /\
  (isValid (trigger fs1) = success (ZSignUpFormSchema values) /\
   errors (trigger fs1) = to_errors (issues_of (ZSignUpFormSchema values))) /\
  trigger (trigger fs1) = trigger fs1 /\
  (getValues (trigger fs1) = values /\ isSubmitting (trigger fs1) = submitting1) /\
  (let pg' := with_form (trigger (form pg)) pg in
   calls pg' = calls pg /\ pending pg' = pending pg /\ uncaught pg' = uncaught pg) /\
  match ZSignUpFormSchema values with
  | ParseSuccess data => ZSignUpFormSchema data = ParseSuccess data
  | ParseError _ => True
  end.
Proof.
  intros fs1 fs2. repeat split.
  - apply resolver_errors_empty.
  - destruct (ZSignUpFormSchema values) as [data | issues] eqn:E; [| exact I].
    pose proof (success_data _ _ E) as ->.
    assert (Hs : success (ZSignUpFormSchema values) = true) by now rewrite E.
    apply success_iff in Hs. destruct Hs as [Hf Hr].
    apply field_issues_nil in Hf. destruct Hf as (H1 & H2 & H3 & H4).
    assert (Hp : parsed (parsed values) = parsed values).
    { unfold parsed. simpl. now rewrite trim_idem. }
    assert (Hs : success (ZSignUpFormSchema (parsed values)) = true).
    { apply success_iff. split.
      - apply field_issues_nil. simpl. now rewrite trim_idem.
      - now rewrite Hp. }
    destruct (ZSignUpFormSchema (parsed values)) as [data' |] eqn:E';
      [| discriminate].
    now rewrite (success_data _ _ E'), Hp.
Qed.

End SchemaClaims.

(** C1, witness: the input of Ann Lee meets the four hypotheses. *)
Lemma schema_valid_iff_no_personal_information_witness :
  (JsString.trim (name Sample.ann) <> "" /\
   Sample.email_test (email Sample.ann) = true /\
   email Sample.ann <> "" /\
   Sample.eight_characters (password Sample.ann) = []) /\
  (success (@ZSignUpFormSchema Sample.externals Sample.ann) = true <->
     JsString.includes (password Sample.ann) (JsString.trim (name Sample.ann)) = false /\
     JsString.includes (password Sample.ann) (local_part (email Sample.ann)) = false).
Proof.
  assert (H : JsString.trim (name Sample.ann) <> "" /\
              Sample.email_test (email Sample.ann) = true /\
              email Sample.ann <> "" /\
              Sample.eight_characters (password Sample.ann) = []).
  { vm_compute. repeat split; congruence. }
  split; [exact H |].
  destruct H as (H1 & H2 & H3 & H4).
  exact (proj1 (@schema_valid_iff_no_personal_information Sample.externals
                  Sample.ann H1 H2 H3 H4)).
Defined.

(** C1, counterexample to the claim read with the name as typed: the
    name [" Ann "] is non-empty after trimming, the e-mail and the
    password pass their checks, the password contains neither [" Ann "]
    nor [bob], and the parse fails all the same, because the password
    contains the trimmed name [Ann]. *)
Lemma untrimmed_name_counterexample :
  let input := {| name := " Ann "; email := "bob@x.com";
                  password := "X9!Ann-horse"; signature := None |} in
  JsString.trim (name input) <> "" /\
  Sample.email_test (email input) = true /\
  email input <> "" /\
  Sample.eight_characters (password input) = [] /\
  JsString.includes (password input) (name input) = false /\
  JsString.includes (password input) (local_part (email input)) = false /\
  ZSignUpFormSchema (ext := Sample.externals) input = ParseError [refine_issue].
Proof. vm_compute. repeat split; congruence. Qed.

(** C2, witness: a password that contains the name. *)
Lemma password_with_personal_information_fails_witness :
  let input := {| name := "Ann Lee"; email := "not an e-mail";
                  password := "Ann Lee"; signature := None |} in
  ZSignUpFormSchema (ext := Sample.externals) input =
    ParseError (field_issues (ext := Sample.externals) input ++ [refine_issue])%list /\
  Zod.path refine_issue = ["password"] /\
  is_Some (resolver_errors (ext := Sample.externals) input !! "password").
Proof.
  intros input.
  apply (@password_with_personal_information_fails Sample.externals input).
  left. reflexivity.
Defined.

(** * The claims about the handlers *)

Section HandlerClaims.
Context {ext : Externals}.
Variable searchParams : URLSearchParams.


(** C6.  When the [signUp] call throws an error whose code is
    [AppErrorCode.ALREADY_EXISTS] (a member distinct from
    [INVALID_REQUEST]), the only notification is a destructive toast
    whose description renders the descriptor with the text "User with
    this email already exists. Please use a different email
    address." *)
Theorem already_exists_notification (auth : AuthCall -> Outcome) (now : Z)
    (values : TSignUpFormSchema) (err : Thrown) :
  auth (emailPassword_signUp (signUp_payload values)) = Rejected err ->
  code (AppError_parseError err) = AppErrorCode_ALREADY_EXISTS ->
  AppErrorCode_ALREADY_EXISTS <> AppErrorCode_INVALID_REQUEST ->
  run auth now (onFormSubmit searchParams values) =
    ([authClient (emailPassword_signUp (signUp_payload values));
      toast {| title := i18n_ (msg "An error occurred");
               description := Some (i18n_ (msg
                 "User with this email already exists. Please use a different email address."));
               variant := Some destructive;
               duration := None |}],
     inl tt).
Proof.
  intros Ha Hc Hne. rewrite run_onFormSubmit, Ha.
  unfold classified_message.
  rewrite Hc, (get_property_own _ _ msg_already_exists); [reflexivity |].
  rewrite signupErrorMessages_lookup.
  destruct (decide _) as [E | _]; [congruence |].
  destruct (decide _) as [_ | N]; [reflexivity | congruence].
Qed.

End HandlerClaims.

(** * The claims about the page *)

Section PageClaims.
Context {ext : Externals}.
Variable props : SignUpFormProps.
Variable searchParams : URLSearchParams.
Variable hashParams : URLSearchParams.

Local Abbreviation step := (step props searchParams).
Local Abbreviation reachable := (reachable props searchParams hashParams).
Local Abbreviation run_session := (session props searchParams hashParams).
Local Abbreviation task_ok := (task_ok searchParams).
Local Abbreviation page_inv := (page_inv searchParams).

Lemma issues_nonempty (values : TSignUpFormSchema) :
  success (ZSignUpFormSchema values) = false ->
  resolver_errors values <> ∅.
Proof.
  intros H E. apply (bool_decide_eq_true_2 _) in E.
  rewrite resolver_errors_empty in E. congruence.
Qed.

(** A click on the enabled Complete button of a form whose values do
    not pass the schema makes no call, parks no handler and puts the
    messages of the schema, of which there is at least one, on
    display: [form.handleSubmit] runs the resolver itself. *)
Lemma handleSubmit_refuses_invalid_values (pg : Page) (now : Z) :
  success (ZSignUpFormSchema (getValues (form pg))) = false ->
  isSubmitting (form pg) = false ->
  calls (step now ClickComplete pg) = calls pg /\
  pending (step now ClickComplete pg) = pending pg /\
  errors (form (step now ClickComplete pg)) = resolver_errors (getValues (form pg)) /\
  errors (form (step now ClickComplete pg)) <> ∅.
Proof.
  intros Hs Hsub. pose proof (issues_nonempty _ Hs) as Hne. simpl. rewrite Hsub.
  destruct (ZSignUpFormSchema (getValues (form pg))) as [| issues] eqn:E;
    [discriminate |].
  unfold resolver_errors in *. rewrite E in *. simpl in *. repeat split; exact Hne.
Qed.

(** A submit event on a form whose [isValid] is false makes no call
    and parks no handler; it runs [form.trigger()], which shows the
    messages of the schema and brings [isValid] in step with the
    values. *)
Lemma onSubmit_refuses_when_not_isValid (pg : Page) (now : Z) :
  isValid (form pg) = false ->
  calls (step now SubmitEvent pg) = calls pg /\
  pending (step now SubmitEvent pg) = pending pg /\
  errors (form (step now SubmitEvent pg)) = resolver_errors (getValues (form pg)) /\
  isValid (form (step now SubmitEvent pg)) =
    success (ZSignUpFormSchema (getValues (form pg))).
Proof.
  intros Hv. simpl. rewrite Hv. simpl. repeat split. apply resolver_errors_empty.
Qed.

(** A submit event on a form whose [isValid] is true calls [signUp]
    with the values of the form, whether or not they pass the schema:
    the handler reads the flag, not the schema. *)
Lemma onSubmit_trusts_isValid (pg : Page) (now : Z) :
  isValid (form pg) = true ->
  calls (step now SubmitEvent pg) =
    (calls pg ++
     [authClient (emailPassword_signUp (signUp_payload (getValues (form pg))))])%list.
Proof.
  intros Hv. simpl. rewrite Hv.
  destruct (exec_onFormSubmit searchParams now (getValues (form pg)))
    as (k & He & _).
  now rewrite (advance_Suspended _ _ _ _ _ _ _ He).
Qed.

(** On a page of a session, a parked [signUp] handler whose call is
    rejected shows the one toast of the [catch] block; when the call
    resolves it calls [navigate] and is parked again, at that call. *)
Lemma settled_signUp_effects (pg : Page) (now : Z) (i : nat) (t : Task)
    (p : SignUpPayload) :
  reachable pg ->
  pending pg !! i = Some t ->
  awaited t = emailPassword_signUp p ->
  calls (step now (Settle i Resolved) pg) =
    (calls pg ++ [navigate "/unverified-account"])%list /\
  map awaited (pending (step now (Settle i Resolved) pg)) =
    (map awaited (delete i (pending pg)) ++ [navigation "/unverified-account"])%list /\
  forall err,
    calls (step now (Settle i (Rejected err)) pg) =
      (calls pg ++ [toast (error_toast (classified_message err))])%list.
Proof.
  intros Hr Ei Ea. apply reachable_inv in Hr.
  pose proof (pending_task_ok _ _ _ _ Hr Ei) as Ht.
  unfold task_ok in Ht.
  rewrite Ea in Ht. destruct Ht as (_ & values & -> & Hres & Hrej).
  destruct (Hres now) as (k & He & _).
  split; [| split; [| intros err]]; simpl; rewrite Ei.
  - now rewrite (advance_Suspended _ _ _ _ _ _ _ He).
  - rewrite (advance_Suspended _ _ _ _ _ _ _ He). simpl.
    now rewrite map_app.
  - now rewrite (advance_Done _ _ _ _ _ (Hrej now err)).
Qed.

(** On a page of a session, a handler parked at [await navigate] ends
    with the success toast and the analytics event when the navigation
    resolves, and with the toast of the [catch] block when it is
    rejected: the await is inside [try]. *)
Lemma settled_navigate_effects (pg : Page) (now : Z) (i : nat) (t : Task)
    (to : string) :
  reachable pg ->
  pending pg !! i = Some t ->
  awaited t = navigation to ->
  exists values,
    calls (step now (Settle i Resolved) pg) =
      (calls pg ++ [toast success_toast; capture_event searchParams values now])%list /\
    forall err,
      calls (step now (Settle i (Rejected err)) pg) =
        (calls pg ++ [toast (error_toast (classified_message err))])%list.
Proof.
  intros Hr Ei Ea. apply reachable_inv in Hr.
  pose proof (pending_task_ok _ _ _ _ Hr Ei) as Ht.
  unfold task_ok in Ht.
  rewrite Ea in Ht. destruct Ht as (_ & _ & values & Hres & Hrej).
  exists values. split; [| intros err]; simpl; rewrite Ei.
  - now rewrite (advance_Done _ _ _ _ _ (Hres now)).
  - now rewrite (advance_Done _ _ _ _ _ (Hrej now err)).
Qed.

(** A code that is none of the three keys is not in the table. *)
Lemma signupErrorMessages_miss (c : string) :
  c <> "SIGNUP_DISABLED" ->
  c <> AppErrorCode_ALREADY_EXISTS ->
  c <> AppErrorCode_INVALID_REQUEST ->
  signupErrorMessages !! c = None.
Proof.
  intros H1 H2 H3. rewrite signupErrorMessages_lookup.
  repeat (destruct (decide _) as [E | _]; [congruence |]). reflexivity.
Qed.

(** C7, where the code departs from the claim.  When the [signUp] call
    throws an error whose code is none of [SIGNUP_DISABLED],
    [ALREADY_EXISTS], [INVALID_REQUEST] but names a member of
    [Object.prototype], such as [toString], the table yields that
    member, the fallback after [??] is not taken, and the description
    of the destructive toast is the empty string.  Nothing is
    thrown. *)
Theorem inherited_code_leaves_description_empty (auth : AuthCall -> Outcome)
    (now : Z) (values : TSignUpFormSchema) (err : Thrown) :
  auth (emailPassword_signUp (signUp_payload values)) = Rejected err ->
  code (AppError_parseError err) <> "SIGNUP_DISABLED" ->
  code (AppError_parseError err) <> AppErrorCode_ALREADY_EXISTS ->
  code (AppError_parseError err) <> AppErrorCode_INVALID_REQUEST ->
  code (AppError_parseError err) ∈ Object_prototype_keys ->
  classified_message err = Some (inherited (code (AppError_parseError err))) /\
  run auth now (onFormSubmit searchParams values) =
    ([authClient (emailPassword_signUp (signUp_payload values));
      toast {| title := i18n_ (msg "An error occurred");
               description := Some "";
               variant := Some destructive;
               duration := None |}],
     inl tt).
Proof.
  intros Ha H1 H2 H3 Hin.
  assert (E : classified_message err =
              Some (inherited (code (AppError_parseError err)))).
  { unfold classified_message.
    rewrite (get_property_inherited _ _ (signupErrorMessages_miss _ H1 H2 H3) Hin).
    reflexivity. }
  split; [exact E |].
  rewrite run_onFormSubmit, Ha, E. reflexivity.
Qed.

Lemma sso_click_keeps_form now pg :
  form (step now ClickGoogle pg) = form pg /\
  form (step now ClickOIDC pg) = form pg.
Proof.
  split; simpl; (destruct (_ && _); [| reflexivity]).
  - destruct (exec_onSignUpWithGoogleClick now) as (k & He & _).
    now rewrite (advance_Suspended _ _ _ _ _ _ _ He).
  - destruct (exec_onSignUpWithOIDCClick now) as (k & He & _).
    now rewrite (advance_Suspended _ _ _ _ _ _ _ He).
Qed.

(** C8.  When the entry point of a single sign-on button throws, the
    handler throws nothing and makes exactly one more call: the
    destructive "unknown error" toast, the same for every error and
    for both buttons.  The handlers take no form value, and a click
    on either button leaves the state of the form, its validity and
    its messages, as it was. *)
Theorem sso_error_notification (auth : AuthCall -> Outcome) (now : Z)
    (err_google err_oidc : Thrown) :
  auth google_signIn = Rejected err_google ->
  auth oidc_signIn = Rejected err_oidc ->
  run auth now onSignUpWithGoogleClick =
    ([authClient google_signIn; toast unknown_error_toast], inl tt) /\
  run auth now onSignUpWithOIDCClick =
    ([authClient oidc_signIn; toast unknown_error_toast], inl tt) /\
  unknown_error_toast =
    {| title := i18n_ (msg "An unknown error occurred");
       description := Some (i18n_ (msg
         "We encountered an unknown error while attempting to sign you Up. Please try again later."));
       variant := Some destructive;
       duration := None |} /\
  (forall pg, form (step now ClickGoogle pg) = form pg /\
              form (step now ClickOIDC pg) = form pg).
Proof.
  intros Hg Ho. destruct (run_sso auth now) as [Eg Eo].
  rewrite Eg, Eo, Hg, Ho. repeat split; apply sso_click_keeps_form.
Qed.

(** C10, as amended.  For every input that passes the schema, the
    name of the output is the trimmed name of the input; the password
    contains neither the trimmed name nor the name as typed; and a
    click on the enabled Complete button of a form holding the input
    calls [signUp] with the trimmed name. *)
Theorem schema_trims_the_name (input data : TSignUpFormSchema) (pg : Page)
    (now : Z) :
  ZSignUpFormSchema input = ParseSuccess data ->
  getValues (form pg) = input ->
  isSubmitting (form pg) = false ->
  name data = JsString.trim (name input) /\
  JsString.includes (password input) (JsString.trim (name input)) = false /\
  JsString.includes (password input) (name input) = false /\
  calls (step now ClickComplete pg) =
    (calls pg ++
     [authClient (emailPassword_signUp
        {| payload_name := JsString.trim (name input);
           payload_email := email input;
           payload_password := password input;
           payload_signature := JsString.or_null (signature input) |})])%list.
Proof.
  intros E Hv Hs.
  pose proof (success_data _ _ E) as Hd.
  assert (Hok : success (ZSignUpFormSchema input) = true) by now rewrite E.
  apply success_iff in Hok. destruct Hok as [_ Hr].
  apply refinement_iff in Hr. destruct Hr as [Hr _]. simpl in Hr.
  split; [now rewrite Hd | split; [exact Hr | split]].
  - apply not_true_is_false. intros H. apply raw_name_contained in H. congruence.
  - simpl. rewrite Hs, Hv, E.
    destruct (exec_onFormSubmit searchParams now data) as (k & He & _).
    rewrite (advance_Suspended _ _ _ _ _ _ _ He). simpl. now rewrite Hd.
Qed.

(** A submit attempt on values that pass the schema, which on the
    submit event needs [isValid] to say so, makes exactly one call,
    the [signUp] call.  The payload carries the values handed to
    [onFormSubmit]: on a submit event those of [getValues], on the
    Complete button the output of the schema. *)
Lemma valid_submit_calls_signUp_once (pg : Page) (now : Z) (a : Action)
    (data : TSignUpFormSchema) :
  ZSignUpFormSchema (getValues (form pg)) = ParseSuccess data ->
  submit_attempt a pg ->
  (a = SubmitEvent -> isValid (form pg) = true) ->
  calls (step now a pg) =
    (calls pg ++
     [authClient (emailPassword_signUp (signUp_payload
        match a with
        | SubmitEvent => getValues (form pg)
        | _ => data
        end))])%list.
Proof.
  intros E Ha Hv.
  destruct Ha as [-> | [-> Hs]]; [apply onSubmit_trusts_isValid; now apply Hv |].
  simpl. rewrite Hs, E.
  destruct (exec_onFormSubmit searchParams now data) as (k & He & _).
  now rewrite (advance_Suspended _ _ _ _ _ _ _ He).
Qed.

(** The signature of the payload is [null] exactly when the form has
    none or an empty one. *)
Lemma payload_signature_null (values : TSignUpFormSchema) :
  payload_signature (signUp_payload values) = None <->
  signature values = None \/ signature values = Some "".
Proof.
  simpl. destruct (signature values) as [[|c s]|]; simpl; split; intros H;
    try destruct H; try discriminate; auto.
Qed.

End PageClaims.

(** * The claims at the sample collaborators *)

(** C3, the run on which the code departs from the claim.  Ann Lee's
    valid input is typed and a signature is drawn: the signature pad
    runs [form.trigger('signature')], which sets [isValid].  The name
    is then cleared.  Nothing has read [formState.isValid] so far, so
    the flag is not recomputed: it stays true while the values no
    longer pass the schema and the name message is on display.  The
    submit event then calls [signUp] with the empty name.  A click on
    the Complete button on the same page makes no call. *)
Theorem stale_isValid_submits_invalid_values :
  let pg := @session Sample.externals Sample.props [] []
              (Sample.typed ++ [(1%Z, Change field_signature "sig");
                                (2%Z, Change field_name "")]) in
  let pg' := @step Sample.externals Sample.props [] 3 SubmitEvent pg in
  success (@ZSignUpFormSchema Sample.externals (getValues (form pg))) = false /\
  errors (form pg) !! "name" = Some "Please enter a valid name." /\
  isValid (form pg) = true /\
  calls pg = [] /\
  calls pg' =
    [authClient (emailPassword_signUp
       {| payload_name := ""; payload_email := "ann@x.com";
          payload_password := "X9!correct-horse";
          payload_signature := Some "sig" |})] /\
  signUp_count (calls pg') = 1 /\
  calls (@step Sample.externals Sample.props [] 3 ClickComplete pg) = [].
Proof. vm_compute. repeat split. Qed.


(** C6, witness: the client rejects with [ALREADY_EXISTS]; in the source
    locale the toast shows the text itself. *)
Lemma already_exists_notification_witness :
  @run Sample.externals unit (Sample.rejects "ALREADY_EXISTS") 0
    (@onFormSubmit Sample.externals [] Sample.ann) =
    ([authClient (emailPassword_signUp (signUp_payload Sample.ann));
      toast {| title := "An error occurred";
               description := Some
                 "User with this email already exists. Please use a different email address.";
               variant := Some destructive;
               duration := None |}],
     inl tt).
Proof.
  apply (@already_exists_notification Sample.externals [] (Sample.rejects "ALREADY_EXISTS") 0%Z Sample.ann (mkAppError "ALREADY_EXISTS")).
  - reflexivity.
  - reflexivity.
  - discriminate.
Defined.

(** C7, witness: the client rejects with the code [toString]. *)
Lemma inherited_code_leaves_description_empty_witness :
  @run Sample.externals unit (Sample.rejects "toString") 0
    (@onFormSubmit Sample.externals [] Sample.ann) =
    ([authClient (emailPassword_signUp (signUp_payload Sample.ann));
      toast {| title := "An error occurred";
               description := Some "";
               variant := Some destructive;
               duration := None |}],
     inl tt).
Proof.
  refine (proj2 (@inherited_code_leaves_description_empty Sample.externals []
           (Sample.rejects "toString") 0%Z Sample.ann
           (mkAppError "toString") eq_refl _ _ _ _));
    [discriminate | discriminate | discriminate |].
  vm_compute. repeat constructor.
Defined.

(** C8, witness: both entry points throw. *)
Lemma sso_error_notification_witness :
  @run Sample.externals unit (Sample.rejects "POPUP_CLOSED") 0
    (@onSignUpWithGoogleClick Sample.externals) =
    ([authClient google_signIn;
      toast {| title := "An unknown error occurred";
               description := Some
                 "We encountered an unknown error while attempting to sign you Up. Please try again later.";
               variant := Some destructive;
               duration := None |}],
     inl tt).
Proof.
  exact (proj1 (@sso_error_notification Sample.externals Sample.props []
           (Sample.rejects "POPUP_CLOSED") 0%Z
           (mkAppError "POPUP_CLOSED") (mkAppError "POPUP_CLOSED") eq_refl eq_refl)).
Defined.

(** C10, witness: the Complete button on a form whose name starts with
    a space. *)
Lemma schema_trims_the_name_witness :
  let pg := @session Sample.externals Sample.props [] [] Sample.typed_with_space in
  calls (@step Sample.externals Sample.props [] 1 ClickComplete pg) =
    [authClient (emailPassword_signUp
       {| payload_name := "Ann Lee"; payload_email := "ann@x.com";
          payload_password := "X9!correct-horse"; payload_signature := None |})].
Proof.
  exact (proj2 (proj2 (proj2
    (@schema_trims_the_name Sample.externals Sample.props []
       (getValues (form (@session Sample.externals Sample.props [] [] Sample.typed_with_space)))
       _ (@session Sample.externals Sample.props [] [] Sample.typed_with_space) 1%Z
       eq_refl eq_refl eq_refl)))).
Defined.

(** C10, counterexample.  A submit event on the empty form shows the
    messages; the same values are then typed, and a second submit event
    calls [signUp] with the name as typed, leading space included.  And
    no input whose password contains the name as typed passes the
    schema, whatever the collaborators. *)
Lemma untrimmed_payload_counterexample :
  calls (@session Sample.externals Sample.props [] []
           ([(0%Z, SubmitEvent)] ++ Sample.typed_with_space ++
            [(1%Z, SubmitEvent)])) =
    [authClient (emailPassword_signUp
       {| payload_name := " Ann Lee"; payload_email := "ann@x.com";
          payload_password := "X9!correct-horse"; payload_signature := None |})] /\
  ~ (exists (ext : Externals) (input : TSignUpFormSchema),
       JsString.includes (password input) (name input) = true /\
       success (ZSignUpFormSchema input) = true).
Proof.
  split; [vm_compute; reflexivity |].
  intros (ext & input & Hin & Hok).
  apply success_iff in Hok. destruct Hok as [_ Hr].
  apply refinement_iff in Hr. destruct Hr as [Hr _]. simpl in Hr.
  apply raw_name_contained in Hin. congruence.
Qed.

(** C5, the run on which the code departs from the claim.  A submit
    event on the empty form shows the messages; Ann Lee's valid input
    is typed and a second submit event reaches the form: one [signUp]
    call is made and awaited, with the payload of the claim, but
    [isSubmitting] is still false, so the Complete button is enabled; a
    click on it makes a second [signUp] call while the first is still
    awaited. *)
Theorem onSubmit_leaves_resubmission_enabled :
  let payload :=
    {| payload_name := "Ann Lee"; payload_email := "ann@x.com";
       payload_password := "X9!correct-horse"; payload_signature := None |} in
  let pg := @session Sample.externals Sample.props [] []
              ([(0%Z, SubmitEvent)] ++ Sample.typed ++ [(1%Z, SubmitEvent)]) in
  let pg' := @step Sample.externals Sample.props [] 2 ClickComplete pg in
  calls pg = [authClient (emailPassword_signUp payload)] /\
  map awaited (pending pg) = [auth_call (emailPassword_signUp payload)] /\
  isSubmitting (form pg) = false /\
  calls pg' = [authClient (emailPassword_signUp payload);
               authClient (emailPassword_signUp payload)] /\
  map awaited (pending pg') =
    [auth_call (emailPassword_signUp payload);
     auth_call (emailPassword_signUp payload)] /\
  signUp_pending pg' = 2.
Proof. vm_compute. repeat split. Qed.

(** The same input submitted with the Complete button: the button is
    disabled while the call is awaited, and a second click does
    nothing. *)
Example complete_button_disabled_while_awaited :
  let pg := @session Sample.externals Sample.props [] []
              (Sample.typed ++ [(1%Z, ClickComplete)]) in
  let pg' := @step Sample.externals Sample.props [] 2 ClickComplete pg in
  isSubmitting (form pg) = true /\
  signUp_pending pg = 1 /\
  calls pg' = calls pg /\
  signUp_pending pg' = 1.
Proof. vm_compute. repeat split. Qed.

(** * Further properties of the validation schema *)

Section SchemaExtras.
Context {ext : Externals}.
Import JsString.

Lemma issues_of_schema (input : TSignUpFormSchema) :
  issues_of (ZSignUpFormSchema input) =
    (field_issues input ++
     if refinement (parsed input) then [] else [refine_issue])%list.
Proof.
  rewrite ZSignUpFormSchema_eq. now destruct (_ ++ _)%list.
Qed.

(** The first issue of a path is the one kept. *)
Lemma to_errors_app (l1 l2 : list Zod.ZodIssue) (k : string) :
  to_errors (l1 ++ l2) !! k =
    match to_errors l1 !! k with
    | Some m => Some m
    | None => to_errors l2 !! k
    end.
Proof.
  induction l1 as [|i l1 IH]; simpl; [now rewrite lookup_empty |].
  destruct (decide (join_path (Zod.path i) = k)) as [<- | N].
  - now rewrite !lookup_insert_eq.
  - now rewrite !lookup_insert_ne by exact N.
Qed.

Lemma to_errors_at_key (key k : string) (msgs : list string) :
  to_errors (Zod.at_key key msgs) !! k =
    if decide (key = k) then head msgs else None.
Proof.
  destruct msgs as [|m msgs]; simpl.
  - rewrite lookup_empty. now destruct (decide _).
  - destruct (decide (key = k)) as [<- | N].
    + now rewrite lookup_insert_eq.
    + rewrite lookup_insert_ne by exact N.
      induction msgs as [|m' msgs IH]; simpl; [apply lookup_empty |].
      now rewrite lookup_insert_ne by exact N.
Qed.

Lemma shown_eq (input : TSignUpFormSchema) (f : FieldName) :
  shown input f =
    match f with
    | field_name => head (snd (name_schema (name input)))
    | field_email => head (snd (email_schema (email input)))
    | field_password =>
        match head (ZPasswordSchema (password input)) with
        | Some m => Some m
        | None => if refinement (parsed input) then None
                  else Some (msg_id msg_password_personal)
        end
    | field_signature => None
    end.
Proof.
  unfold shown, resolver_errors. rewrite issues_of_schema. unfold field_issues.
  rewrite !to_errors_app, !to_errors_at_key.
  assert (Hr : forall k,
    to_errors (if refinement (parsed input) then [] else [refine_issue]) !! k =
      if refinement (parsed input) then None
      else if decide ("password" = k) then Some (msg_id msg_password_personal)
      else None).
  { intros k. destruct (refinement _); simpl; [apply lookup_empty |].
    destruct (decide _) as [<- | N]; [apply lookup_insert_eq |].
    rewrite lookup_insert_ne by exact N. apply lookup_empty. }
  rewrite Hr.
  destruct f; simpl;
    repeat (destruct (decide _) as [E | E]; try discriminate E;
            try (exfalso; apply E; reflexivity));
    repeat (destruct (head _)); try reflexivity;
    now destruct (refinement _).
Qed.

(** X1.  After a full validation the name field shows "Please enter a
    valid name." exactly when the name is empty or made of white space
    only; otherwise it shows nothing. *)
Theorem name_message (input : TSignUpFormSchema) :
  shown input field_name =
    if decide (trim (name input) = "")
    then Some "Please enter a valid name."
    else None.
Proof.
  rewrite shown_eq, name_schema_eq. simpl.
  destruct (decide (trim (name input) = "")) as [-> | N]; [reflexivity |].
  destruct (trim (name input)); [congruence | reflexivity].
Qed.

(** X2.  The e-mail field shows "Invalid email" whenever the e-mail
    test rejects the text, the length message when the test accepts an
    empty text, and nothing otherwise. *)
Theorem email_message (input : TSignUpFormSchema) :
  shown input field_email =
    if emailRegex_test (email input)
    then (if decide (email input = "")
          then Some "String must contain at least 1 character(s)"
          else None)
    else Some "Invalid email".
Proof.
  rewrite shown_eq, email_schema_eq. simpl.
  destruct (emailRegex_test (email input)); [| reflexivity].
  destruct (decide (email input = "")) as [-> | N]; [reflexivity |].
  destruct (email input); [congruence | reflexivity].
Qed.

(** X3.  Under the password field the first message of the strength
    policy takes precedence: the personal-information message is shown
    only when the policy raises nothing and the refinement fails. *)
Theorem password_message (input : TSignUpFormSchema) :
  shown input field_password =
    match ZPasswordSchema (password input) with
    | m :: _ => Some m
    | [] =>
        if negb (includes (password input) (trim (name input))) &&
           negb (includes (password input) (local_part (email input)))
        then None
        else Some "Password should not be common or based on personal information"
    end.
Proof.
  rewrite shown_eq. destruct (ZPasswordSchema (password input)); reflexivity.
Qed.

(** X4.  The signature plays no part in validation: replacing it
    changes neither the verdict nor the issues, no message is ever
    shown under it, and a successful parse returns it as it came. *)
Theorem signature_is_not_validated (input : TSignUpFormSchema) (s : option string) :
  let input' := {| name := name input; email := email input;
                   password := password input; signature := s |} in
  success (ZSignUpFormSchema input') = success (ZSignUpFormSchema input) /\
  issues_of (ZSignUpFormSchema input') = issues_of (ZSignUpFormSchema input) /\
  shown input field_signature = None /\
  match ZSignUpFormSchema input' with
  | ParseSuccess data => signature data = s
  | ParseError _ => True
  end.
Proof.
  intros input'.
  assert (Hi : issues_of (ZSignUpFormSchema input') = issues_of (ZSignUpFormSchema input)).
  { rewrite !issues_of_schema. reflexivity. }
  split; [| split; [exact Hi | split; [apply shown_eq |]]].
  - rewrite !ZSignUpFormSchema_eq. rewrite !issues_of_schema in Hi.
    rewrite Hi. now destruct (_ ++ _)%list.
  - destruct (ZSignUpFormSchema input') as [data |] eqn:E; [| exact I].
    now rewrite (success_data _ _ E).
Qed.

End SchemaExtras.

Section SchemaExtras2.
Context {ext : Externals}.
Import JsString.

Lemma includes_empty (s : string) : includes s "" = true.
Proof. apply includes_iff. exists "", s. reflexivity. Qed.

Lemma includes_in_empty (s : string) : includes "" s = true -> s = "".
Proof.
  rewrite includes_iff. intros (a & b & H).
  destruct a; [| discriminate]. destruct s; [reflexivity | discriminate].
Qed.

Lemma trimStart_no_leading (s : string) : starts_with_space (trimStart s) = false.
Proof.
  induction s as [|c s IH]; [reflexivity |]. simpl.
  destruct (isWhiteSpace c) eqn:W; [exact IH | exact W].
Qed.

Lemma trimEnd_cons (c : ascii) (s : string) :
  trimEnd (String c s) =
    match trimEnd s with
    | "" => if isWhiteSpace c then "" else String c ""
    | r => String c r
    end.
Proof. reflexivity. Qed.

Lemma trimEnd_no_trailing (s : string) : ends_with_space (trimEnd s) = false.
Proof.
  induction s as [|c s IH]; [reflexivity |]. rewrite trimEnd_cons.
  destruct (trimEnd s) as [|d r].
  - destruct (isWhiteSpace c) eqn:W; [reflexivity | exact W].
  - exact IH.
Qed.

Lemma trimEnd_keeps_start (s : string) :
  starts_with_space s = false -> starts_with_space (trimEnd s) = false.
Proof.
  destruct s as [|c s]; [reflexivity |]. rewrite trimEnd_cons. simpl. intros W.
  destruct (trimEnd s); [now rewrite W | exact W].
Qed.

Lemma trimStart_fixed (s : string) : starts_with_space s = false -> trimStart s = s.
Proof. destruct s as [|c s]; [reflexivity |]. simpl. now intros ->. Qed.

Lemma trimEnd_fixed (s : string) : ends_with_space s = false -> trimEnd s = s.
Proof.
  induction s as [|c s IH]; [reflexivity |]. rewrite trimEnd_cons.
  destruct s as [|d s].
  - simpl. now intros ->.
  - intros H. rewrite IH by exact H. reflexivity.
Qed.

(** A string without white space at either end is left alone. *)
Lemma trim_fixed (s : string) :
  starts_with_space s = false -> ends_with_space s = false -> trim s = s.
Proof.
  intros H1 H2. unfold trim. rewrite (trimStart_fixed _ H1). now apply trimEnd_fixed.
Qed.

Lemma trim_no_edges (s : string) :
  starts_with_space (trim s) = false /\ ends_with_space (trim s) = false.
Proof.
  unfold trim. split; [| apply trimEnd_no_trailing].
  apply trimEnd_keeps_start, trimStart_no_leading.
Qed.

Lemma local_part_cons (c : ascii) (e : string) :
  local_part (String c e) =
    if Ascii.eqb c "@" then "" else String c (local_part e).
Proof.
  unfold local_part. simpl. destruct (Ascii.eqb c "@"); [reflexivity |].
  destruct (split_first "@" e) as (h & t & ->). reflexivity.
Qed.

Lemma includes_at_cons (c : ascii) (s : string) :
  includes (String c s) "@" = Ascii.eqb c "@" || includes s "@".
Proof.
  rewrite includes_cons. f_equal.
  destruct (Ascii.eqb_spec c "@") as [-> | N].
  - apply prefix_iff. exists s. reflexivity.
  - apply not_true_is_false. rewrite prefix_iff. intros [b Hb].
    rewrite append_cons in Hb. injection Hb. congruence.
Qed.

(** X5.  A name that is empty after trimming, or an e-mail whose text
    before the first [@] is empty, makes the refinement fail whatever
    the password: the issue scoped to [password] is raised, and the
    password field shows a message. *)
Theorem blank_personal_information_flags_password (input : TSignUpFormSchema) :
  trim (name input) = "" \/ local_part (email input) = "" ->
  In refine_issue (issues_of (ZSignUpFormSchema input)) /\
  is_Some (shown input field_password).
Proof.
  intros H.
  assert (Hr : refinement (parsed input) = false).
  { apply not_true_is_false. rewrite refinement_iff. simpl.
    fold (local_part (email input)). intros [H1 H2].
    destruct H as [E | E]; rewrite E, includes_empty in *; discriminate. }
  split.
  - rewrite issues_of_schema, Hr. apply in_or_app. right. now left.
  - rewrite shown_eq, Hr. destruct (head _); eauto.
Qed.

(** X6.  The schema sees the name only through its trimmed form: two
    inputs that differ only by white space around the name get the
    same result, output included. *)
Theorem white_space_around_name_is_ignored (input : TSignUpFormSchema) (n : string) :
  trim n = trim (name input) ->
  ZSignUpFormSchema (setValue field_name n input) = ZSignUpFormSchema input.
Proof.
  intros H. rewrite !ZSignUpFormSchema_eq.
  unfold field_issues, parsed. rewrite !name_schema_eq. simpl. now rewrite H.
Qed.

(** X7.  The name of a successful parse is not empty and has no white
    space at either end. *)
Theorem output_name_is_trimmed (input data : TSignUpFormSchema) :
  ZSignUpFormSchema input = ParseSuccess data ->
  name data <> "" /\
  starts_with_space (name data) = false /\
  ends_with_space (name data) = false.
Proof.
  intros E. pose proof (success_data _ _ E) as ->.
  assert (Hs : success (ZSignUpFormSchema input) = true) by now rewrite E.
  apply success_iff in Hs. destruct Hs as [Hf _].
  apply field_issues_nil in Hf. destruct Hf as [Hn _].
  simpl. split; [exact Hn | apply trim_no_edges].
Qed.

(** X8.  Lengthening the name never turns an accepted input into a
    rejected one: if an input passes and the name is replaced by one
    whose trimmed form contains the old trimmed name, the input still
    passes. *)
Theorem longer_name_still_passes (input : TSignUpFormSchema) (n : string) :
  success (ZSignUpFormSchema input) = true ->
  includes (trim n) (trim (name input)) = true ->
  success (ZSignUpFormSchema (setValue field_name n input)) = true.
Proof.
  intros Hs Hin. apply success_iff in Hs. destruct Hs as [Hf Hr].
  apply field_issues_nil in Hf. destruct Hf as (H1 & H2 & H3 & H4).
  apply refinement_iff in Hr. simpl in Hr. destruct Hr as [Hr1 Hr2].
  apply success_iff. split.
  - apply field_issues_nil. simpl. repeat split; try assumption.
    intros E. rewrite E in Hin. apply includes_in_empty in Hin. congruence.
  - apply refinement_iff. simpl. split; [| exact Hr2].
    apply not_true_is_false. intros H.
    pose proof (includes_trans _ _ _ H Hin). congruence.
Qed.

(** X9.  The text the refinement takes for the local part never
    contains [@]; it is the whole e-mail when the e-mail has no [@],
    and otherwise the part before the first [@]. *)
Theorem local_part_spec (e : string) :
  includes (local_part e) "@" = false /\
  ((includes e "@" = false /\ local_part e = e) \/
   (exists rest, e = local_part e ++ "@" ++ rest)).
Proof.
  induction e as [|c e [IH1 IH2]].
  - split; [reflexivity | left; split; reflexivity].
  - rewrite local_part_cons. destruct (Ascii.eqb_spec c "@") as [-> | N].
    + split; [reflexivity | right; exists e; reflexivity].
    + apply Ascii.eqb_neq in N. split.
      * now rewrite includes_at_cons, N, IH1.
      * destruct IH2 as [[Ha Hb] | [rest Hr]].
        -- left. rewrite includes_at_cons, N, Ha, Hb. now split.
        -- right. exists rest. now rewrite append_cons, <- Hr.
Qed.

End SchemaExtras2.

(** * Further properties of the page *)

Section PageExtras.
Context {ext : Externals}.
Variable props : SignUpFormProps.
Variable searchParams : URLSearchParams.
Variable hashParams : URLSearchParams.

Local Abbreviation step := (step props searchParams).
Local Abbreviation reachable := (reachable props searchParams hashParams).
Local Abbreviation run_session := (session props searchParams hashParams).
Local Abbreviation task_ok := (task_ok searchParams).
Local Abbreviation page_inv := (page_inv searchParams).
Local Abbreviation transition := (transition props searchParams).
Local Abbreviation finishing_calls := (finishing_calls searchParams).
Local Abbreviation runs_on := (runs_on searchParams).
Local Abbreviation reachable_invariant :=
  (reachable_invariant props searchParams hashParams).
Local Abbreviation handleSubmit_invariant :=
  (handleSubmit_invariant props searchParams hashParams).

(** A property of the first page that every event other than a submit
    event preserves holds at the end of every session without submit
    events. *)
Lemma session_without_submit_ind (P : Page -> Prop) :
  P (initial props hashParams) ->
  (forall now a pg, reachable pg -> a <> SubmitEvent -> P pg -> P (step now a pg)) ->
  forall events,
    Forall (fun ev => snd ev <> SubmitEvent) events -> P (run_session events).
Proof.
  intros H0 Hstep events Hev. unfold session. rewrite <- fold_left_rev_right.
  apply Forall_rev in Hev.
  assert (H : reachable (fold_right (fun ev pg => let '(now, a) := ev in step now a pg)
                           (initial props hashParams) (rev events)) /\
              P (fold_right (fun ev pg => let '(now, a) := ev in step now a pg)
                   (initial props hashParams) (rev events))).
  { induction Hev as [| [now a] l Ha _ [IHr IHP]]; simpl.
    - split; [apply reachable_initial | exact H0].
    - split; [now apply reachable_step | now apply Hstep]. }
  apply H.
Qed.

Lemma acceptable_values (values : TSignUpFormSchema) :
  success (ZSignUpFormSchema values) = true ->
  acceptable (signUp_payload values) /\ acceptable (signUp_payload (parsed values)).
Proof.
  intros Hs. apply success_iff in Hs. destruct Hs as [Hf Hr].
  apply field_issues_nil in Hf. destruct Hf as (H1 & H2 & H3 & H4).
  apply refinement_iff in Hr. simpl in Hr. destruct Hr as [Hr1 Hr2].
  unfold acceptable. simpl. rewrite trim_idem. fold (local_part (email values)) in Hr2.
  repeat split; assumption.
Qed.

Lemma finishing_calls_no_authClient (c : Awaited) (o : Outcome) (now : Z)
    (made : list Effect) :
  finishing_calls c o now made -> Forall (fun e => is_authClient e = false) made.
Proof.
  destruct c as [[p | |] | to], o; simpl; intros H;
    try contradiction; first [subst made | destruct H as [values ->]];
    repeat constructor.
Qed.

(** X10.  In a session in which no submit event reaches the form, so
    that every sign-up goes through the Complete button, every [signUp]
    call that was ever made carries a payload that passes each rule of
    the schema: a name that is not blank, an e-mail that passes the
    e-mail test, a password that passes the policy and contains neither
    the trimmed name nor the local part. *)
Theorem signUp_only_with_valid_data (events : list (Z * Action)) :
  Forall (fun ev => snd ev <> SubmitEvent) events ->
  signUp_calls_acceptable (calls (run_session events)).
Proof.
  apply (session_without_submit_ind (fun pg => signUp_calls_acceptable (calls pg)));
    [constructor |].
  intros now a pg Hr Ha HP.
  pose proof (reachable_inv props searchParams hashParams pg Hr) as Hinv.
  unfold signUp_calls_acceptable in *.
  destruct a; simpl; [exact HP | congruence | ..].
  - destruct (isSubmitting (form pg)); [exact HP |].
    destruct (ZSignUpFormSchema (getValues (form pg))) as [data | issues] eqn:E;
      [| exact HP].
    destruct (exec_onFormSubmit searchParams now data) as (k & He & _).
    rewrite (advance_Suspended _ _ _ _ _ _ _ He). simpl.
    apply Forall_app. split; [exact HP |]. constructor; [| constructor].
    rewrite (success_data _ _ E). apply acceptable_values. now rewrite E.
  - destruct (_ && _); [| exact HP].
    destruct (exec_onSignUpWithGoogleClick now) as (k & He & _).
    rewrite (advance_Suspended _ _ _ _ _ _ _ He). simpl.
    apply Forall_app. split; [exact HP | repeat constructor].
  - destruct (_ && _); [| exact HP].
    destruct (exec_onSignUpWithOIDCClick now) as (k & He & _).
    rewrite (advance_Suspended _ _ _ _ _ _ _ He). simpl.
    apply Forall_app. split; [exact HP | repeat constructor].
  - destruct (pending pg !! i) as [t |] eqn:Ei; [| exact HP].
    pose proof (pending_task_ok _ _ _ _ Hinv Ei) as Ht.
    destruct (task_resumes searchParams now o t Ht)
      as [(made & He & Hm) | (_ & _ & _ & k & He & _)].
    + rewrite (advance_Done _ _ _ _ _ He). simpl.
      apply Forall_app. split; [exact HP |].
      eapply Forall_impl; [exact (finishing_calls_no_authClient _ _ _ _ Hm) |].
      intros e He'. simpl in He'. now destruct e.
    + rewrite (advance_Suspended _ _ _ _ _ _ _ He). simpl.
      apply Forall_app. split; [exact HP | repeat constructor].
Qed.

(** X11.  In every session at most one handler started by the Complete
    button is parked at a time, and [formState.isSubmitting] is true
    exactly while one is. *)
Theorem one_handleSubmit_at_a_time (pg : Page) :
  reachable pg ->
  length (handleSubmit_tasks pg) = (if isSubmitting (form pg) then 1 else 0).
Proof. intros Hr. now apply handleSubmit_invariant. Qed.

(** X12.  While a handler started by the Complete button is parked, the
    form still holds the values it was started with: the handler is
    [onFormSubmit] on the schema's output for the current values,
    parked at its [signUp] call, whose payload is that of this output,
    or at the [navigate] call that follows. *)
Theorem handleSubmit_values_are_frozen (pg : Page) (t : Task) :
  reachable pg ->
  In t (pending pg) ->
  origin t = from_handleSubmit ->
  (awaited t =
     emailPassword_signUp (signUp_payload (parsed (getValues (form pg)))) /\
   signUp_continuation searchParams (parsed (getValues (form pg))) (resume t)) \/
  (awaited t = navigation "/unverified-account" /\
   navigate_continuation searchParams (parsed (getValues (form pg))) (resume t)).
Proof.
  intros Hr Hin Ho. destruct (handleSubmit_invariant pg Hr) as [_ Hall].
  rewrite Forall_forall in Hall. apply Hall; [now apply list_elem_of_In |].
  now rewrite Ho.
Qed.

Lemma count_calls_app (kind : Effect -> bool) (a b : list Effect) :
  count_calls kind (a ++ b) = (count_calls kind a + count_calls kind b)%nat.
Proof. induction a as [|e a IH]; simpl; [reflexivity | rewrite IH; lia]. Qed.

(** X13.  In every session each navigation answers a [signUp] call of
    its own that has resolved, and each analytics event a navigation of
    its own that has resolved: navigations and awaited [signUp] calls
    together never outnumber the [signUp] calls made, analytics events
    and awaited navigations together never outnumber the navigations
    made, and every navigation goes to [/unverified-account]. *)
Theorem navigation_follows_signUp (pg : Page) :
  reachable pg ->
  count_calls is_capture (calls pg) + navigate_pending pg
    <= count_calls is_navigate (calls pg) /\
  count_calls is_navigate (calls pg) + signUp_pending pg
    <= count_calls is_signUp (calls pg) /\
  Forall (fun e => is_navigate e = true -> e = navigate "/unverified-account")
         (calls pg).
Proof.
  revert pg.
  apply (reachable_invariant (fun pg =>
    count_calls is_capture (calls pg) + navigate_pending pg
      <= count_calls is_navigate (calls pg) /\
    count_calls is_navigate (calls pg) + signUp_pending pg
      <= count_calls is_signUp (calls pg) /\
    Forall (fun e => is_navigate e = true -> e = navigate "/unverified-account")
           (calls pg))); [repeat split; constructor |].
  intros now pg0 pg' Hinv (H1 & H2 & H3) Ht.
  rewrite !signUp_pending_bool in *. unfold navigate_pending in *.
  destruct Ht as [Hp Hc _ _ | k _ _ _ Hp Hc | data k _ _ _ _ _ Hp Hc
                 | c k Hc0 _ _ Hp Hc | i t k Ei Ha _ _ Hp Hc
                 | i t o made Ei Hm _ Hp Hc]; rewrite Hc, Hp.
  - now repeat split.
  - rewrite !List.filter_app, !length_app, !count_calls_app. simpl.
    repeat split; [lia | lia |].
    apply Forall_app. split; [exact H3 | constructor; [discriminate | constructor]].
  - rewrite !List.filter_app, !length_app, !count_calls_app. simpl.
    repeat split; [lia | lia |].
    apply Forall_app. split; [exact H3 | constructor; [discriminate | constructor]].
  - rewrite !List.filter_app, !length_app, !count_calls_app.
    destruct Hc0 as [[-> _] | [-> _]]; simpl;
      (repeat split; [lia | lia |]);
      (apply Forall_app; split; [exact H3 | constructor; [discriminate | constructor]]).
  - pose proof (filter_bool_delete_length awaits_signUp _ _ _ Ei) as Hd1.
    pose proof (filter_bool_delete_length awaits_navigate _ _ _ Ei) as Hd2.
    assert (Hn : awaits_navigate t = false).
    { unfold awaits_navigate. unfold awaits_signUp in Ha.
      now destruct (call_of (awaited t)) as [[| |] | | |]. }
    rewrite Ha in Hd1. rewrite Hn in Hd2.
    rewrite !List.filter_app, !length_app, !count_calls_app. simpl.
    repeat split; [lia | lia |].
    apply Forall_app. split; [exact H3 | constructor; [reflexivity | constructor]].
  - pose proof (filter_bool_delete_length awaits_signUp _ _ _ Ei) as Hd1.
    pose proof (filter_bool_delete_length awaits_navigate _ _ _ Ei) as Hd2.
    unfold awaits_signUp at 3 in Hd1. unfold awaits_navigate at 3 in Hd2.
    rewrite !count_calls_app.
    destruct (awaited t) as [[p | |] | to], o; simpl in Hm, Hd1, Hd2;
      try contradiction; first [subst made | destruct Hm as [values ->]]; simpl;
      (repeat split; [lia | lia |]);
      (apply Forall_app; split; [exact H3 |]);
      repeat constructor; discriminate.
Qed.

(** X14.  In every session each toast answers a call to the
    authentication client that has settled, one toast at most per
    call: toasts and parked handlers together never outnumber the calls
    made. *)
Theorem one_toast_per_settled_call (pg : Page) :
  reachable pg ->
  count_calls is_toast (calls pg) + length (pending pg)
    <= count_calls is_authClient (calls pg).
Proof.
  revert pg.
  apply (reachable_invariant (fun pg =>
    count_calls is_toast (calls pg) + length (pending pg)
      <= count_calls is_authClient (calls pg))); [simpl; lia |].
  intros now pg0 pg' Hinv H Ht.
  assert (Hl : forall i t, pending pg0 !! i = Some t ->
                 length (pending pg0) = S (length (delete i (pending pg0)))).
  { intros i t. generalize (pending pg0). clear. intros l. revert i.
    induction l as [|x l IH]; intros i Ei; [discriminate |].
    destruct i as [|i]; simpl; [reflexivity |]. f_equal. now apply IH. }
  destruct Ht as [Hp Hc _ _ | k _ _ _ Hp Hc | data k _ _ _ _ _ Hp Hc
                 | c k Hc0 _ _ Hp Hc | i t k Ei _ _ _ Hp Hc
                 | i t o made Ei Hm _ Hp Hc]; rewrite Hc, Hp;
    rewrite ?count_calls_app, ?length_app; simpl; try lia.
  - specialize (Hl i t Ei). lia.
  - specialize (Hl i t Ei).
    destruct (awaited t) as [[p | |] | to], o; simpl in Hm;
      try contradiction; first [subst made | destruct Hm as [values ->]]; simpl; lia.
Qed.

Lemma sso_calls_need_flag (pg : Page) :
  reachable pg ->
  (truthy (isGoogleSSOEnabled props) = false ->
   ~ In (authClient google_signIn) (calls pg)) /\
  (truthy (isOIDCSSOEnabled props) = false ->
   ~ In (authClient oidc_signIn) (calls pg)).
Proof.
  revert pg.
  apply (reachable_invariant (fun pg =>
    (truthy (isGoogleSSOEnabled props) = false ->
     ~ In (authClient google_signIn) (calls pg)) /\
    (truthy (isOIDCSSOEnabled props) = false ->
     ~ In (authClient oidc_signIn) (calls pg)))); [split; intros _ [] |].
  intros now pg0 pg' Hinv [Hg Ho] Ht.
  assert (Hnew : forall c made,
    calls pg' = (calls pg0 ++ made)%list ->
    (In (authClient c) made -> False) ->
    ~ In (authClient c) (calls pg0) -> ~ In (authClient c) (calls pg')).
  { intros c made -> Hm H0 Hin. apply in_app_or in Hin. tauto. }
  assert (Hsettled : forall c c' o made,
    finishing_calls c' o now made -> In (authClient c) made -> False).
  { intros c c' o made Hm Hin.
    pose proof (finishing_calls_no_authClient c' o now made Hm) as Hf.
    rewrite Forall_forall in Hf. apply list_elem_of_In, Hf in Hin. discriminate. }
  destruct Ht as [Hp Hc _ _ | k _ _ _ Hp Hc | data k _ _ _ _ _ Hp Hc
                 | c k Hc0 _ _ Hp Hc | i t k Ei _ _ _ Hp Hc
                 | i t o made Ei Hm _ Hp Hc].
  - rewrite Hc. now split.
  - split; intros Hf; (eapply Hnew; [exact Hc | | auto]);
      intros [H | []]; discriminate.
  - split; intros Hf; (eapply Hnew; [exact Hc | | auto]);
      intros [H | []]; discriminate.
  - split; intros Hf; (eapply Hnew; [exact Hc | | auto]);
      intros [H | []]; destruct Hc0 as [[-> Hc0] | [-> Hc0]];
      try discriminate; congruence.
  - split; intros Hf; (eapply Hnew; [exact Hc | | auto]);
      intros [H | []]; discriminate.
  - split; intros Hf; (eapply Hnew; [exact Hc | eapply Hsettled; exact Hm | auto]).
Qed.

(** X15.  A single sign-on button that is not rendered never starts its
    flow: when the flag of a provider is absent or false, no session
    ever calls the entry point of that provider. *)
Theorem hidden_sso_button_never_calls (pg : Page) :
  reachable pg ->
  (truthy (isGoogleSSOEnabled props) = false ->
   ~ In (authClient google_signIn) (calls pg)) /\
  (truthy (isOIDCSSOEnabled props) = false ->
   ~ In (authClient oidc_signIn) (calls pg)).
Proof. apply sso_calls_need_flag. Qed.

(** A rendered and enabled single sign-on button starts its flow
    whatever the form holds. *)
Lemma sso_click_calls (pg : Page) (now : Z) :
  isSubmitting (form pg) = false ->
  (truthy (isGoogleSSOEnabled props) = true ->
   calls (step now ClickGoogle pg) = (calls pg ++ [authClient google_signIn])%list) /\
  (truthy (isOIDCSSOEnabled props) = true ->
   calls (step now ClickOIDC pg) = (calls pg ++ [authClient oidc_signIn])%list).
Proof.
  intros Hs. split; intros Hf; simpl; rewrite Hf, Hs; cbn [andb negb].
  - destruct (exec_onSignUpWithGoogleClick now) as (k & He & _).
    now rewrite (advance_Suspended _ _ _ _ _ _ _ He).
  - destruct (exec_onSignUpWithOIDCClick now) as (k & He & _).
    now rewrite (advance_Suspended _ _ _ _ _ _ _ He).
Qed.

(** X16.  For a form whose [isValid] is set, that passes the schema and
    whose name has no white space at either end, the submit event and
    the enabled Complete button make the same call: the output of the
    schema is the input itself. *)
Theorem both_paths_agree_on_trimmed_names (pg : Page) (now : Z) :
  isValid (form pg) = true ->
  isSubmitting (form pg) = false ->
  success (ZSignUpFormSchema (getValues (form pg))) = true ->
  starts_with_space (name (getValues (form pg))) = false ->
  ends_with_space (name (getValues (form pg))) = false ->
  calls (step now SubmitEvent pg) = calls (step now ClickComplete pg) /\
  ZSignUpFormSchema (getValues (form pg)) = ParseSuccess (getValues (form pg)).
Proof.
  intros Hv Hs Hok H1 H2.
  destruct (ZSignUpFormSchema (getValues (form pg))) as [data |] eqn:E;
    [| discriminate].
  assert (Hd : data = getValues (form pg)).
  { rewrite (success_data _ _ E). unfold parsed. rewrite (trim_fixed _ H1 H2).
    now destruct (getValues (form pg)). }
  split; [| now rewrite Hd].
  rewrite (valid_submit_calls_signUp_once props searchParams
             pg now SubmitEvent data E (or_introl eq_refl) (fun _ => Hv)).
  rewrite (valid_submit_calls_signUp_once props searchParams
             pg now ClickComplete data E (or_intror (conj eq_refl Hs))
             ltac:(discriminate)).
  now rewrite Hd.
Qed.

(** X17.  Whatever [initialEmail] and whatever the hash of the address
    carries, the form starts with an empty name, so it does not pass
    the schema and a full validation shows the name message; its e-mail
    is the non-empty [email] of the hash if there is one, else
    [initialEmail], else empty. *)
Theorem mounted_form_is_invalid :
  let values := getValues (mount props hashParams) in
  name values = "" /\
  email values =
    match URLSearchParams_get "email" hashParams with
    | Some (String c e) => String c e
    | _ => default "" (initialEmail props)
    end /\
  success (ZSignUpFormSchema values) = false /\
  shown values field_name = Some "Please enter a valid name.".
Proof.
  assert (Hn : name (getValues (mount props hashParams)) = "").
  { unfold mount. simpl.
    destruct (URLSearchParams_get "email" hashParams) as [[|c e]|]; reflexivity. }
  repeat split.
  - exact Hn.
  - unfold mount. simpl.
    destruct (URLSearchParams_get "email" hashParams) as [[|c e]|]; reflexivity.
  - apply mount_invalid.
  - rewrite shown_eq, name_schema_eq, Hn. reflexivity.
Qed.

(** X23.  When the call that a handler started by the Complete button
    awaits settles, the form is no longer submitting and no such
    handler is left, so the controls are enabled again; except when the
    call is [signUp] and it resolved: then the handler is parked at
    [navigate], and the form stays submitting until that settles. *)
Theorem settling_reenables_the_form (pg : Page) (now : Z) (i : nat) (t : Task)
    (o : Outcome) :
  reachable pg ->
  pending pg !! i = Some t ->
  origin t = from_handleSubmit ->
  let pg' := step now (Settle i o) pg in
  match awaited t, o with
  | auth_call (emailPassword_signUp _), Resolved =>
      isSubmitting (form pg') = true /\
      map awaited (handleSubmit_tasks pg') = [navigation "/unverified-account"]
  | _, _ =>
      isSubmitting (form pg') = false /\ handleSubmit_tasks pg' = []
  end.
Proof.
  intros Hr Ei Ho pg'.
  pose proof (reachable_inv props searchParams hashParams pg Hr) as Hinv.
  pose proof (pending_task_ok _ _ _ _ Hinv Ei) as Ht.
  destruct (handleSubmit_invariant _ (reachable_step _ _ _ pg now (Settle i o) Hr))
    as [Hn' _].
  destruct (handleSubmit_invariant _ Hr) as [Hn _].
  fold pg' in Hn'.
  pose proof (filter_bool_delete_length (fun t => is_from_handleSubmit (origin t))
                _ _ _ Ei) as Hc.
  cbv beta in Hc. rewrite Ho in Hc. simpl in Hc.
  unfold handleSubmit_tasks in Hn. rewrite Hc in Hn.
  destruct (task_resumes searchParams now o t Ht)
    as [(made & He & Hm) | (Ha & -> & _ & k & He & _)].
  - assert (Hs : isSubmitting (form pg') = false).
    { unfold pg'. simpl. rewrite Ei, (advance_Done _ _ _ _ _ He). simpl.
      now rewrite Ho. }
    rewrite Hs in Hn'. apply length_zero_iff_nil in Hn'.
    destruct (awaited t) as [[p | |] | to], o; simpl in Hm;
      try contradiction; now split.
  - assert (Hs : isSubmitting (form pg') = true).
    { unfold pg'. simpl. rewrite Ei, (advance_Suspended _ _ _ _ _ _ _ He). simpl.
      destruct (isSubmitting (form pg)); [reflexivity | lia]. }
    assert (Hp : handleSubmit_tasks pg' =
                 (List.filter (fun t => is_from_handleSubmit (origin t))
                    (delete i (pending pg)) ++
                  [mkTask from_handleSubmit (navigation "/unverified-account") k])%list).
    { unfold pg', handleSubmit_tasks. simpl.
      rewrite Ei, (advance_Suspended _ _ _ _ _ _ _ He). simpl.
      rewrite List.filter_app. simpl. now rewrite Ho. }
    rewrite Hs, Hp, length_app in Hn'. simpl in Hn'.
    assert (Hnil : List.filter (fun t => is_from_handleSubmit (origin t))
                     (delete i (pending pg)) = []).
    { apply length_zero_iff_nil. lia. }
    rewrite awaits_signUp_awaited in Ha.
    destruct (awaited t) as [[p | |] | to]; try discriminate.
    split; [exact Hs |]. now rewrite Hp, Hnil.
Qed.

(** X24.  In every session no error has escaped a handler: whatever
    the authentication client or the navigation throws is caught by
    the [catch] block of the handler that awaits it. *)
Theorem no_error_escapes (pg : Page) : reachable pg -> uncaught pg = [].
Proof.
  intros Hr. now apply (reachable_inv props searchParams hashParams) in Hr as [_ Hu].
Qed.

Lemma advance_isValid now o p pg :
  isValid (form (advance now o p pg)) = isValid (form pg) /\
  watchesIsValid (advance now o p pg) = watchesIsValid pg.
Proof.
  unfold advance. destruct (exec now p) as [made [| err | c k]]; simpl;
    destruct o; now split.
Qed.

(** X25.  As long as no submit event has reached the form and no
    signature has been drawn, [formState.isValid] is false whatever has
    been typed: the first submit event makes no call, even on values
    that pass the schema; it validates, which shows the messages there
    are and brings [isValid] in step with the values. *)
Theorem first_submit_event_only_validates (events : list (Z * Action)) (now : Z) :
  Forall (fun ev => leaves_isValid (snd ev) = true) events ->
  let pg := run_session events in
  let pg' := step now SubmitEvent pg in
  isValid (form pg) = false /\
  calls pg' = calls pg /\
  pending pg' = pending pg /\
  errors (form pg') = resolver_errors (getValues (form pg)) /\
  isValid (form pg') = success (ZSignUpFormSchema (getValues (form pg))).
Proof.
  intros Hev pg pg'.
  assert (H : isValid (form pg) = false /\ watchesIsValid pg = false).
  { unfold pg, session. rewrite <- fold_left_rev_right.
    apply Forall_rev in Hev.
    induction Hev as [| [now' a] l Ha _ [IH1 IH2]]; [now split |].
    cbn [fold_right]. set (pg0 := fold_right _ _ l) in *. simpl in Ha.
    destruct a as [f v | | | | | i o]; simpl; try discriminate.
    - rewrite IH2. split; [| reflexivity].
      rewrite change_stale; [exact IH1 | now destruct f].
    - destruct (isSubmitting (form pg0)); [now split |].
      destruct (ZSignUpFormSchema (getValues (form pg0))); [| now split].
      destruct (advance_isValid now' from_handleSubmit
                  (onFormSubmit searchParams data)
                  (with_form (set_errors ∅ (set_isSubmitting true (form pg0))) pg0))
        as [-> ->].
      now split.
    - destruct (_ && _); [| now split].
      now destruct (advance_isValid now' from_sso onSignUpWithGoogleClick pg0)
        as [-> ->].
    - destruct (_ && _); [| now split].
      now destruct (advance_isValid now' from_sso onSignUpWithOIDCClick pg0)
        as [-> ->].
    - destruct (pending pg0 !! i) as [t |]; [| now split].
      now destruct (advance_isValid now' (origin t) (resume t o) (unpark i pg0))
        as [-> ->]. }
  destruct H as [Hv _]. split; [exact Hv |].
  now apply onSubmit_refuses_when_not_isValid.
Qed.

(** X26.  [await navigate] is inside [try]: when the navigation that
    follows a resolved [signUp] call is rejected, the handler shows the
    destructive toast of the [catch] block, with the message selected
    by the code of that error, and neither the success toast nor the
    analytics event, although the account has been created. *)
Theorem failed_navigation_is_reported_as_signUp_error (pg : Page) (now : Z)
    (i : nat) (t : Task) (to : string) (err : Thrown) :
  reachable pg ->
  pending pg !! i = Some t ->
  awaited t = navigation to ->
  to = "/unverified-account" /\
  calls (step now (Settle i (Rejected err)) pg) =
    (calls pg ++ [toast (error_toast (classified_message err))])%list /\
  pending (step now (Settle i (Rejected err)) pg) = delete i (pending pg).
Proof.
  intros Hr Ei Ea. apply (reachable_inv props searchParams hashParams) in Hr.
  pose proof (pending_task_ok _ _ _ _ Hr Ei) as Ht.
  unfold task_ok in Ht.
  rewrite Ea in Ht. destruct Ht as (_ & -> & values & Hres & Hrej).
  split; [reflexivity |]. simpl. rewrite Ei.
  now rewrite (advance_Done _ _ _ _ _ (Hrej now err)).
Qed.

End PageExtras.

(** * Further properties of the handlers *)

Section HandlerExtras.
Context {ext : Externals}.
Variable searchParams : URLSearchParams.

(** X18.  When the enum member [INVALID_REQUEST] has the value under
    which the fallback reads the table, every rejection of [signUp]
    whose code does not name a member of [Object.prototype] ends in
    exactly one destructive toast with a description, and the
    description is one of the three of the table: that of the code if
    the table has it, the invalid-request one otherwise; the handler
    throws nothing, does not navigate and captures nothing. *)
Theorem every_rejection_has_a_message (auth : AuthCall -> Outcome) (now : Z)
    (values : TSignUpFormSchema) (err : Thrown) :
  auth (emailPassword_signUp (signUp_payload values)) = Rejected err ->
  AppErrorCode_INVALID_REQUEST = "INVALID_REQUEST" ->
  code (AppError_parseError err) ∉ Object_prototype_keys ->
  let c := code (AppError_parseError err) in
  let descriptor :=
    if decide (c = "INVALID_REQUEST") then msg_invalid_request
    else if decide (c = AppErrorCode_ALREADY_EXISTS) then msg_already_exists
    else if decide (c = "SIGNUP_DISABLED") then msg_signups_disabled
    else msg_invalid_request in
  run auth now (onFormSubmit searchParams values) =
    ([authClient (emailPassword_signUp (signUp_payload values));
      toast {| title := i18n_ (msg "An error occurred");
               description := Some (i18n_ descriptor);
               variant := Some destructive;
               duration := None |}],
     inl tt).
Proof.
  intros Ha Hk Hnot. cbv zeta. rewrite run_onFormSubmit, Ha.
  assert (Hfallback : get_property signupErrorMessages "INVALID_REQUEST" =
                      Some (own msg_invalid_request)).
  { apply get_property_own. rewrite signupErrorMessages_lookup, Hk.
    now destruct (decide _). }
  unfold classified_message.
  destruct (signupErrorMessages !! code (AppError_parseError err)) as [d |] eqn:E.
  - rewrite (get_property_own _ _ _ E). simpl.
    rewrite signupErrorMessages_lookup, Hk in E.
    repeat match goal with
           | _ : context [decide (?a = ?b)] |- _ => destruct (decide (a = b))
           | |- context [decide (?a = ?b)] => destruct (decide (a = b))
           end; simpl; try congruence; injection E as <-; reflexivity.
  - rewrite (get_property_undefined _ _ E Hnot), Hfallback. simpl.
    rewrite signupErrorMessages_lookup, Hk in E.
    repeat match goal with
           | _ : context [decide (?a = ?b)] |- _ => destruct (decide (a = b))
           | |- context [decide (?a = ?b)] => destruct (decide (a = b))
           end; simpl; try congruence; reflexivity.
Qed.

(** X19.  An error whose code is [SIGNUP_DISABLED], a value that
    neither enum member has, is shown as "Signups are disabled." *)
Theorem signups_disabled_notification (auth : AuthCall -> Outcome) (now : Z)
    (values : TSignUpFormSchema) (err : Thrown) :
  auth (emailPassword_signUp (signUp_payload values)) = Rejected err ->
  code (AppError_parseError err) = "SIGNUP_DISABLED" ->
  AppErrorCode_ALREADY_EXISTS <> "SIGNUP_DISABLED" ->
  AppErrorCode_INVALID_REQUEST <> "SIGNUP_DISABLED" ->
  run auth now (onFormSubmit searchParams values) =
    ([authClient (emailPassword_signUp (signUp_payload values));
      toast {| title := i18n_ (msg "An error occurred");
               description := Some (i18n_ (msg "Signups are disabled."));
               variant := Some destructive;
               duration := None |}],
     inl tt).
Proof.
  intros Ha Hc H1 H2. rewrite run_onFormSubmit, Ha.
  unfold classified_message.
  rewrite Hc, (get_property_own _ _ msg_signups_disabled); [reflexivity |].
  rewrite signupErrorMessages_lookup.
  repeat match goal with
         | |- context [decide (?a = ?b)] => destruct (decide (a = b))
         end; simpl; try congruence; reflexivity.
Qed.

(** X20.  The campaign source is the value of the first [utm_source]
    of the query string, and [null] exactly when the query string has
    no such parameter. *)
Theorem utmSrc_is_the_first_utm_source :
  match utmSrc searchParams with
  | Some v =>
      exists before after,
        searchParams = (before ++ ("utm_source", v) :: after)%list /\
        Forall (fun kv => fst kv <> "utm_source") before
  | None => Forall (fun kv => fst kv <> "utm_source") searchParams
  end.
Proof.
  rewrite utmSrc_eq. induction searchParams as [| [k v] params IH]; simpl.
  - constructor.
  - destruct (String.eqb_spec k "utm_source") as [-> | N].
    + exists [], params. split; [reflexivity | constructor].
    + destruct (URLSearchParams_get "utm_source" params) as [v' |].
      * destruct IH as (before & after & -> & Hb).
        exists ((k, v) :: before), after. split; [reflexivity |].
        constructor; [exact N | exact Hb].
      * constructor; [exact N | exact IH].
Qed.

End HandlerExtras.

(** X21.  The page as the route renders it: [SignUpForm] gets no
    initial e-mail, so the form starts with the non-empty [email] of
    the hash or with none; a provider whose constant is false is never
    called in any session; a provider whose constant is true is called
    by a click on its button whenever the form is not submitting,
    whatever the form holds. *)
Theorem route_renders_the_form {ext : Externals}
    (IS_GOOGLE_SSO_ENABLED IS_OIDC_SSO_ENABLED : bool)
    (searchParams hashParams : URLSearchParams) (pg : Page) (now : Z) :
  let props := Route.SignUp (Route.loader IS_GOOGLE_SSO_ENABLED IS_OIDC_SSO_ENABLED) in
  reachable props searchParams hashParams pg ->
  email (getValues (mount props hashParams)) =
    match URLSearchParams_get "email" hashParams with
    | Some e => e
    | None => ""
    end /\
  (IS_GOOGLE_SSO_ENABLED = false -> ~ In (authClient google_signIn) (calls pg)) /\
  (IS_OIDC_SSO_ENABLED = false -> ~ In (authClient oidc_signIn) (calls pg)) /\
  (IS_GOOGLE_SSO_ENABLED = true -> isSubmitting (form pg) = false ->
   calls (step props searchParams now ClickGoogle pg) =
     (calls pg ++ [authClient google_signIn])%list) /\
  (IS_OIDC_SSO_ENABLED = true -> isSubmitting (form pg) = false ->
   calls (step props searchParams now ClickOIDC pg) =
     (calls pg ++ [authClient oidc_signIn])%list).
Proof.
  intros props Hr.
  destruct (sso_calls_need_flag props searchParams hashParams pg Hr) as [Hg Ho].
  split; [| split; [| split; [| split]]].
  - unfold mount. simpl.
    destruct (URLSearchParams_get "email" hashParams) as [[|c e]|]; reflexivity.
  - intros ->. now apply Hg.
  - intros ->. now apply Ho.
  - intros -> Hs. now apply (sso_click_calls props searchParams pg now Hs).
  - intros -> Hs. now apply (sso_click_calls props searchParams pg now Hs).
Qed.

(** * The further properties at the sample collaborators *)

(** X5, witness: a name made of spaces. *)
Lemma blank_personal_information_flags_password_witness :
  let input := {| name := "   "; email := "ann@x.com";
                  password := "X9!correct-horse"; signature := None |} in
  In refine_issue (issues_of (@ZSignUpFormSchema Sample.externals input)) /\
  is_Some (@shown Sample.externals input field_password).
Proof.
  intros input.
  apply (@blank_personal_information_flags_password Sample.externals input).
  left. reflexivity.
Defined.

(** X6, witness: spaces typed around Ann Lee's name. *)
Lemma white_space_around_name_is_ignored_witness :
  @ZSignUpFormSchema Sample.externals (setValue field_name "  Ann Lee " Sample.ann) =
  @ZSignUpFormSchema Sample.externals Sample.ann.
Proof.
  apply (@white_space_around_name_is_ignored Sample.externals Sample.ann "  Ann Lee ").
  reflexivity.
Defined.

(** X7, witness: the output for a name typed with spaces around it. *)
Lemma output_name_is_trimmed_witness :
  name Sample.ann <> "" /\
  starts_with_space (name Sample.ann) = false /\
  ends_with_space (name Sample.ann) = false.
Proof.
  apply (@output_name_is_trimmed Sample.externals
           (setValue field_name "  Ann Lee " Sample.ann) Sample.ann).
  reflexivity.
Defined.

(** X8, witness: Ann Lee's name with a title and a suffix. *)
Lemma longer_name_still_passes_witness :
  success (@ZSignUpFormSchema Sample.externals
             (setValue field_name "Dr Ann Lee Jr" Sample.ann)) = true.
Proof.
  apply (@longer_name_still_passes Sample.externals Sample.ann "Dr Ann Lee Jr");
    reflexivity.
Defined.

(** The page after Ann Lee's input has been typed and the Complete
    button clicked: one [signUp] call is awaited. *)
Lemma submitted_reachable :
  @reachable Sample.externals Sample.props [] []
    (@session Sample.externals Sample.props [] []
       (Sample.typed ++ [(1%Z, ClickComplete)])).
Proof. apply session_reachable. Qed.

(** The page after that call has resolved: the handler is parked at
    [navigate]. *)
Lemma resolved_reachable :
  @reachable Sample.externals Sample.props [] []
    (@session Sample.externals Sample.props [] []
       (Sample.typed ++ [(1%Z, ClickComplete); (2%Z, Settle 0 Resolved)])).
Proof. apply session_reachable. Qed.

(** X10, witness. *)
Lemma signUp_only_with_valid_data_witness :
  @signUp_calls_acceptable Sample.externals
    (calls (@session Sample.externals Sample.props [] []
              (Sample.typed ++ [(1%Z, ClickComplete)]))).
Proof.
  apply (@signUp_only_with_valid_data Sample.externals Sample.props [] []
           (Sample.typed ++ [(1%Z, ClickComplete)])).
  repeat constructor; discriminate.
Defined.

(** X11, witness. *)
Lemma one_handleSubmit_at_a_time_witness :
  let pg := @session Sample.externals Sample.props [] []
              (Sample.typed ++ [(1%Z, ClickComplete)]) in
  length (handleSubmit_tasks pg) = (if isSubmitting (form pg) then 1 else 0).
Proof.
  exact (@one_handleSubmit_at_a_time Sample.externals Sample.props [] [] _
           submitted_reachable).
Defined.

(** X12, witness: the handler parked on the page after its [signUp]
    call has resolved. *)
Lemma handleSubmit_values_are_frozen_witness :
  let pg := @session Sample.externals Sample.props [] []
              (Sample.typed ++ [(1%Z, ClickComplete); (2%Z, Settle 0 Resolved)]) in
  let t := nth 0 (pending pg)
             (@mkTask Sample.externals from_sso google_signIn (fun _ => Ret tt)) in
  (awaited t =
     emailPassword_signUp (signUp_payload (parsed (getValues (form pg)))) /\
   @signUp_continuation Sample.externals [] (parsed (getValues (form pg))) (resume t)) \/
  (awaited t = navigation "/unverified-account" /\
   @navigate_continuation Sample.externals [] (parsed (getValues (form pg))) (resume t)).
Proof.
  intros pg t.
  apply (@handleSubmit_values_are_frozen Sample.externals Sample.props [] [] pg t
           resolved_reachable).
  - left. reflexivity.
  - reflexivity.
Defined.

(** X13, witness. *)
Lemma navigation_follows_signUp_witness :
  let pg := @session Sample.externals Sample.props [] []
              (Sample.typed ++ [(1%Z, ClickComplete); (2%Z, Settle 0 Resolved)]) in
  count_calls is_capture (calls pg) + navigate_pending pg
    <= count_calls is_navigate (calls pg) /\
  count_calls is_navigate (calls pg) + signUp_pending pg
    <= count_calls is_signUp (calls pg) /\
  Forall (fun e => is_navigate e = true -> e = navigate "/unverified-account")
         (calls pg).
Proof.
  exact (@navigation_follows_signUp Sample.externals Sample.props [] [] _
           resolved_reachable).
Defined.

(** X14, witness. *)
Lemma one_toast_per_settled_call_witness :
  let pg := @session Sample.externals Sample.props [] []
              (Sample.typed ++ [(1%Z, ClickComplete)]) in
  count_calls is_toast (calls pg) + length (pending pg)
    <= count_calls is_authClient (calls pg).
Proof.
  exact (@one_toast_per_settled_call Sample.externals Sample.props [] [] _
           submitted_reachable).
Defined.

(** X15, witness: the same session on a page without the buttons, with
    clicks where they would be. *)
Lemma hidden_sso_button_never_calls_witness :
  let props := {| initialEmail := None; isGoogleSSOEnabled := None;
                  isOIDCSSOEnabled := Some false |} in
  let pg := @session Sample.externals props [] []
              ([(0%Z, ClickGoogle); (0%Z, ClickOIDC)] ++ Sample.typed) in
  ~ In (authClient google_signIn) (calls pg) /\
  ~ In (authClient oidc_signIn) (calls pg).
Proof.
  intros props pg.
  destruct (@hidden_sso_button_never_calls Sample.externals props [] [] pg
              (session_reachable props [] [] _)) as [Hg Ho].
  split; [apply Hg | apply Ho]; reflexivity.
Defined.

(** X16, witness: Ann Lee's input, typed without spaces around the
    name after a first submit event has read [isValid]. *)
Lemma both_paths_agree_on_trimmed_names_witness :
  let pg := @session Sample.externals Sample.props [] []
              ([(0%Z, SubmitEvent)] ++ Sample.typed) in
  calls (@step Sample.externals Sample.props [] 1 SubmitEvent pg) =
  calls (@step Sample.externals Sample.props [] 1 ClickComplete pg) /\
  @ZSignUpFormSchema Sample.externals (getValues (form pg)) =
    ParseSuccess (getValues (form pg)).
Proof.
  intros pg.
  apply (@both_paths_agree_on_trimmed_names Sample.externals Sample.props []
           pg 1%Z); reflexivity.
Defined.

(** X18, witness: a code the table does not have. *)
Lemma every_rejection_has_a_message_witness :
  @run Sample.externals unit (Sample.rejects "TOO_MANY_REQUESTS") 0
    (@onFormSubmit Sample.externals [] Sample.ann) =
    ([authClient (emailPassword_signUp (signUp_payload Sample.ann));
      toast {| title := "An error occurred";
               description := Some
                 "We were unable to create your account. Please review the information you provided and try again.";
               variant := Some destructive;
               duration := None |}],
     inl tt).
Proof.
  refine (@every_rejection_has_a_message Sample.externals []
            (Sample.rejects "TOO_MANY_REQUESTS") 0%Z Sample.ann
            (mkAppError "TOO_MANY_REQUESTS") eq_refl eq_refl _).
  apply (bool_decide_eq_false_1 _). reflexivity.
Defined.

(** X19, witness. *)
Lemma signups_disabled_notification_witness :
  @run Sample.externals unit (Sample.rejects "SIGNUP_DISABLED") 0
    (@onFormSubmit Sample.externals [] Sample.ann) =
    ([authClient (emailPassword_signUp (signUp_payload Sample.ann));
      toast {| title := "An error occurred";
               description := Some "Signups are disabled.";
               variant := Some destructive;
               duration := None |}],
     inl tt).
Proof.
  apply (@signups_disabled_notification Sample.externals []
           (Sample.rejects "SIGNUP_DISABLED") 0%Z Sample.ann
           (mkAppError "SIGNUP_DISABLED")); [reflexivity | reflexivity | | ];
    discriminate.
Defined.

(** X21, witness: the route with Google enabled and OIDC disabled, at
    the first page. *)
Lemma route_renders_the_form_witness :
  let props := Route.SignUp (Route.loader true false) in
  let pg := @initial Sample.externals props [("email", "ann@x.com")] in
  email (getValues (mount props [("email", "ann@x.com")])) = "ann@x.com" /\
  ~ In (authClient oidc_signIn) (calls pg) /\
  calls (@step Sample.externals props [] 0 ClickGoogle pg) = [authClient google_signIn].
Proof.
  intros props pg.
  destruct (@route_renders_the_form Sample.externals true false []
              [("email", "ann@x.com")] pg 0%Z (reachable_initial _ _ _))
    as (He & _ & Ho & Hg & _).
  split; [exact He | split; [now apply Ho | now apply Hg]].
Defined.

(** X24, witness: every call of the session is rejected. *)
Lemma no_error_escapes_witness :
  uncaught (@session Sample.externals Sample.props [] []
              ([(0%Z, ClickGoogle); (1%Z, Settle 0 (@Rejected Sample.externals (mkAppError "POPUP_CLOSED")))]
               ++ Sample.typed ++
               [(2%Z, ClickComplete);
                (3%Z, Settle 0 (@Rejected Sample.externals (mkAppError "ALREADY_EXISTS")))])) = [].
Proof.
  apply (@no_error_escapes Sample.externals Sample.props [] []).
  apply session_reachable.
Defined.

(** X25, witness: Ann Lee's valid input is typed and then submitted
    with a submit event: no call is made. *)
Lemma first_submit_event_only_validates_witness :
  let pg := @session Sample.externals Sample.props [] [] Sample.typed in
  let pg' := @step Sample.externals Sample.props [] 1 SubmitEvent pg in
  success (@ZSignUpFormSchema Sample.externals (getValues (form pg))) = true /\
  calls pg' = [] /\
  isValid (form pg') = true.
Proof.
  intros pg pg'.
  destruct (@first_submit_event_only_validates Sample.externals Sample.props [] []
              Sample.typed 1%Z) as (_ & Hc & _ & _ & Hv).
  { repeat constructor. }
  split; [reflexivity | split; [exact Hc | exact Hv]].
Defined.

(** X26, witness: the navigation of the page on which the [signUp]
    call has resolved fails. *)
Lemma failed_navigation_is_reported_as_signUp_error_witness :
  let pg := @session Sample.externals Sample.props [] []
              (Sample.typed ++ [(1%Z, ClickComplete); (2%Z, Settle 0 Resolved)]) in
  calls (@step Sample.externals Sample.props [] 3
           (Settle 0 (@Rejected Sample.externals (mkAppError "NAVIGATION_FAILED"))) pg) =
    (calls pg ++
     [toast {| title := "An error occurred";
               description := Some
                 "We were unable to create your account. Please review the information you provided and try again.";
               variant := Some destructive;
               duration := None |}])%list.
Proof.
  intros pg.
  exact (proj1 (proj2
    (@failed_navigation_is_reported_as_signUp_error Sample.externals Sample.props
       [] [] pg 3%Z 0
       (nth 0 (pending pg)
          (@mkTask Sample.externals from_sso google_signIn (fun _ => Ret tt)))
       "/unverified-account" (mkAppError "NAVIGATION_FAILED")
       resolved_reachable eq_refl eq_refl))).
Defined.

(** X23, witness: the [signUp] call awaited on that page resolves, and
    then the navigation. *)
Lemma settling_reenables_the_form_witness :
  let pg := @session Sample.externals Sample.props [] []
              (Sample.typed ++ [(1%Z, ClickComplete)]) in
  let pg' := @step Sample.externals Sample.props [] 2 (Settle 0 Resolved) pg in
  let pg'' := @step Sample.externals Sample.props [] 3 (Settle 0 Resolved) pg' in
  (isSubmitting (form pg') = true /\
   map awaited (handleSubmit_tasks pg') = [navigation "/unverified-account"]) /\
  (isSubmitting (form pg'') = false /\ handleSubmit_tasks pg'' = []).
Proof.
  intros pg pg' pg''. split.
  - apply (@settling_reenables_the_form Sample.externals Sample.props [] [] pg 2%Z 0
             (nth 0 (pending pg)
                (@mkTask Sample.externals from_sso google_signIn (fun _ => Ret tt)))
             Resolved submitted_reachable); reflexivity.
  - apply (@settling_reenables_the_form Sample.externals Sample.props [] [] pg' 3%Z 0
             (nth 0 (pending pg')
                (@mkTask Sample.externals from_sso google_signIn (fun _ => Ret tt)))
             Resolved (reachable_step _ _ _ _ _ _ submitted_reachable)); reflexivity.
Defined.

(** X22.  In a session in which no submit event reaches the form, so
    that every sign-up goes through the Complete button, at most one
    [signUp] call is awaited at any time, none is awaited unless the
    form is submitting, when the Complete button and the inputs are
    disabled, and every awaited one was started by
    [form.handleSubmit]. *)
Theorem complete_button_never_overlaps {ext : Externals} (props : SignUpFormProps)
    (searchParams hashParams : URLSearchParams) (events : list (Z * Action)) :
  Forall (fun ev => snd ev <> SubmitEvent) events ->
  let pg := session props searchParams hashParams events in
  signUp_pending pg <= 1 /\
  (isSubmitting (form pg) = false -> signUp_pending pg = 0) /\
  Forall (fun t => awaits_signUp t = true -> origin t = from_handleSubmit)
         (pending pg).
Proof.
  intros Hev pg.
  destruct (complete_button_serialises props searchParams hashParams events Hev)
    as [[Hall Hn] Hle].
  fold pg in Hall, Hn, Hle.
  split; [exact Hle | split; [| exact Hall]].
  intros Hs. rewrite Hs in Hn. lia.
Qed.

(** X22, witness: two clicks on the Complete button. *)
Lemma complete_button_never_overlaps_witness :
  let pg := @session Sample.externals Sample.props [] []
              (Sample.typed ++ [(1%Z, ClickComplete); (2%Z, ClickComplete)]) in
  signUp_pending pg <= 1 /\
  (isSubmitting (form pg) = false -> signUp_pending pg = 0) /\
  Forall (fun t => awaits_signUp t = true -> origin t = from_handleSubmit)
         (pending pg).
Proof.
  apply (@complete_button_never_overlaps Sample.externals Sample.props [] []).
  repeat constructor; discriminate.
Defined.
